(** * Websocket-AI: the connection registry and the per-connection handler

    A shallow embedding of [src/websocket/app.py]: the [ConnectionManager]
    class, [safe_send] and [ws_handler].

    Conventions of the embedding.
    - Python values that travel through [json.loads] / [json.dumps] are the
      inductive type [pyval]; a Python [dict] inside a payload is an
      association list in insertion order (the order is what [json.dumps]
      writes).
    - [connection_manager.connections], a [dict] keyed by connection id, is a
      [gmap string conn_info].
    - Code that reads the clock, mutates the registry, talks to the socket or
      raises is written in the monad [M]: state passing over [world], with an
      outcome that is a value, a raised exception, or [Pending] (the thread is
      blocked in [ws.receive()] and nothing has been delivered yet).
    - The library calls that the module does not define ([json.loads],
      [json.dumps], [str()] of a decoded value, float arithmetic) are the
      fields of the classes [PyFloat] and [PyLib].
    - [logger] calls change neither the registry nor the socket and are left
      out; [world] keeps instead a [trace] of the registry calls and of the
      [safe_send] calls and of the messages received, in the order they
      happened. *)

From stdpp Require Import gmap strings list fin_maps pretty.
From Stdlib Require Import ZArith.

Set Warnings "-register-all".
Local Open Scope Z_scope.

(** ** Python floats

    [time.time()] returns a float; the handler subtracts two of them,
    multiplies one by 1000 and truncates with [int()]. *)
Class PyFloat := {
  float : Type;
  float_sub : float → float → float;      (* a - b *)
  float_mul : float → float → float;      (* a * b *)
  float_of_int : Z → float;               (* int operand promoted to float *)
  float_trunc : float → Z;                (* int(a) *)
  float_is_zero : float → bool            (* a == 0.0 *)
}.

(** ** Python values *)
Inductive pyval `{PyFloat} : Type :=
| PNone
| PBool (b : bool)
| PInt (n : Z)
| PFloat (x : float)
| PStr (s : string)
| PList (l : list pyval)
| PDict (d : list (string * pyval)).

(** ** Exceptions (all of them instances of [Exception]) *)
Inductive exn : Type :=
| JSONDecodeError (msg : string)
| AttributeError (msg : string)
| KeyError (key : string)
| TypeError (msg : string)
| OtherError (msg : string).

(** [str(e)] *)
Definition exn_str (e : exn) : string :=
  match e with
  | JSONDecodeError m | AttributeError m | TypeError m | OtherError m => m
  | KeyError k => "'" +:+ k +:+ "'"
  end.

(** ** Library functions used by the module *)
Class PyLib `{PyFloat} := {
  json_loads : string → exn + pyval;      (* json.loads(raw) *)
  json_dumps : pyval → exn + string;      (* json.dumps(payload) *)
  py_repr : pyval → string                (* str(v) for a v that is no str, int, bool, None *)
}.

(** ** dict and str primitives on [pyval] *)
Section Values.
Context `{PyFloat}.

Fixpoint assoc_get (k : string) (d : list (string * pyval)) : option pyval :=
  match d with
  | [] => None
  | (k', v) :: d' => if decide (k = k') then Some v else assoc_get k d'
  end.

(** [d.get(key, default)] *)
Definition dict_get (k : string) (default : pyval) (d : list (string * pyval)) : pyval :=
  match assoc_get k d with
  | Some v => v
  | None => default
  end.

(** [bool(v)] *)
Definition truthy (v : pyval) : bool :=
  match v with
  | PNone => false
  | PBool b => b
  | PInt n => negb (n =? 0)
  | PFloat x => negb (float_is_zero x)
  | PStr s => negb (String.eqb s "")
  | PList l => match l with [] => false | _ => true end
  | PDict d => match d with [] => false | _ => true end
  end.

(** [v == "literal"] for a str literal *)
Definition eq_str (v : pyval) (lit : string) : bool :=
  match v with
  | PStr s => bool_decide (s = lit)
  | _ => false
  end.

(** Number of code points of a str held as UTF-8: the bytes that are not
    continuation bytes (10xxxxxx). *)
Fixpoint str_len (s : string) : Z :=
  match s with
  | EmptyString => 0
  | String c s' =>
      let n := Z.of_nat (Ascii.nat_of_ascii c) in
      (if (128 <=? n) && (n <? 192) then 0 else 1) + str_len s'
  end.
End Values.

(** ** The registry records and the world *)
Section Model.
Context `{PyLib}.

(** A value of [connection_manager.connections] *)
Record conn_info := ConnInfo {
  ws : Z;                   (* the socket object, by identity *)
  connected_at : float;
  last_ping : float;
  message_count : Z
}.

(** What [ws_handler] and the registry did: the calls of
    [add_connection], [remove_connection] and [safe_send] (with the value
    it returned) and the messages that [ws.receive()] returned. *)
Inductive event :=
| CallAdd (cid : string)
| CallRemove (cid : string)
| CallSend (payload : pyval) (ok : bool)
| Received (raw : string).

Record world := World {
  connections : gmap string conn_info;   (* connection_manager.connections *)
  clock : nat → float;                   (* the value of the n-th time.time() *)
  ticks : nat;                           (* time.time() calls made so far *)
  writes : nat;                          (* ws.send calls made so far *)
  wire : list string;                    (* frames written, newest first *)
  trace : list event                     (* newest first *)
}.

Definition set_connections (f : gmap string conn_info → gmap string conn_info)
    (w : world) : world :=
  World (f (connections w)) (clock w) (ticks w) (writes w) (wire w) (trace w).

(** ** The monad *)
Inductive outcome (A : Type) :=
| Ok (a : A)
| Raise (e : exn)
| Pending.
Global Arguments Ok {A} a.
Global Arguments Raise {A} e.
Global Arguments Pending {A}.

Definition M (A : Type) : Type := world → outcome A * world.

Definition ret {A} (a : A) : M A := λ w, (Ok a, w).
Definition raise {A} (e : exn) : M A := λ w, (Raise e, w).
Definition pending {A} : M A := λ w, (Pending, w).

Definition bind {A B} (m : M A) (f : A → M B) : M B :=
  λ w, match m w with
       | (Ok a, w') => f a w'
       | (Raise e, w') => (Raise e, w')
       | (Pending, w') => (Pending, w')
       end.

(** [try: m  except Exception as e: h e] *)
Definition try_except {A} (m : M A) (h : exn → M A) : M A :=
  λ w, match m w with
       | (Raise e, w') => h e w'
       | r => r
       end.

(** [try: m  finally: fin]; a thread still blocked inside [m] has not
    reached the [finally] clause. *)
Definition try_finally {A} (m : M A) (fin : M unit) : M A :=
  λ w, match m w with
       | (Ok a, w') => bind fin (λ _, ret a) w'
       | (Raise e, w') => bind fin (λ _, raise e) w'
       | (Pending, w') => (Pending, w')
       end.

Definition get_world : M world := λ w, (Ok w, w).
Definition modify (f : world → world) : M unit := λ w, (Ok tt, f w).
Definition lift_sum {A} (r : exn + A) : M A :=
  match r with inl e => raise e | inr a => ret a end.
End Model.

Declare Scope py_scope.
Delimit Scope py_scope with py.
Notation "x ← y ; z" := (bind y (λ x, z))
  (at level 20, y at level 100, z at level 200, only parsing) : py_scope.
Notation "y ;; z" := (bind y (λ _, z))
  (at level 100, z at level 200, only parsing, right associativity) : py_scope.
Local Open Scope py_scope.

Section Server.
Context `{PyLib}.

(** [time.time()] *)
Definition time_time : M float :=
  λ w, (Ok (clock w (ticks w)),
        World (connections w) (clock w) (S (ticks w)) (writes w) (wire w) (trace w)).

Definition note (e : event) : M unit :=
  modify (λ w, World (connections w) (clock w) (ticks w) (writes w) (wire w)
                     (e :: trace w)).

(** [connection_manager.connections[cid]] *)
Definition conn_lookup (cid : string) : M conn_info :=
  w ← get_world;
  match connections w !! cid with
  | Some info => ret info
  | None => raise (KeyError cid)
  end.

(** ** class ConnectionManager *)

Definition add_connection (sock : Z) (cid : string) : M unit :=
  note (CallAdd cid);;
  t1 ← time_time;
  t2 ← time_time;
  modify (set_connections (insert cid (ConnInfo sock t1 t2 0))).

Definition remove_connection (cid : string) : M unit :=
  note (CallRemove cid);;
  w ← get_world;
  if decide (is_Some (connections w !! cid)) then
    conn ← conn_lookup cid;
    now ← time_time;
    let duration := float_sub now (connected_at conn) in
    modify (set_connections (delete cid))
  else ret tt.

(** [get_connection_info]: the public fields of one record *)
Record conn_view := ConnView {
  view_connected_at : float;
  view_duration : float;
  view_message_count : Z
}.

Record conn_report := ConnReport {
  total_connections : Z;
  report_connections : gmap string conn_view
}.

(** [len(self.connections)] *)
Definition read_total : M Z :=
  w ← get_world;
  ret (Z.of_nat (size (connections w))).

(** One entry of the comprehension; each one reads the clock. *)
Definition view_of (info : conn_info) : M conn_view :=
  now ← time_time;
  ret (ConnView (connected_at info) (float_sub now (connected_at info))
                (message_count info)).

Fixpoint views_of (items : list (string * conn_info)) : M (list (string * conn_view)) :=
  match items with
  | [] => ret []
  | (cid, info) :: rest =>
      v ← view_of info;
      vs ← views_of rest;
      ret ((cid, v) :: vs)
  end.

(** The dict comprehension over [self.connections.items()]. The entries
    are visited in the order of [map_to_list]; the order only decides
    which clock reading each [duration] gets. *)
Definition read_views : M (gmap string conn_view) :=
  w ← get_world;
  vs ← views_of (map_to_list (connections w));
  ret (list_to_map vs).

Definition get_connection_info : M conn_report :=
  total ← read_total;
  views ← read_views;
  ret (ConnReport total views).

(** ** The /status route *)

(** The dict [status()] returns: its two own keys and, merged in, the two
    keys of [get_connection_info()]. *)
Record status_body := StatusBody {
  status_text : string;
  server_time : Z;
  status_info : conn_report
}.

Definition status : M status_body :=
  t ← time_time;
  info ← get_connection_info;
  ret (StatusBody "healthy" (float_trunc t) info).

(** ** The socket *)

(** The socket object handed to [ws_handler]: its identity [id(ws)] and,
    for the n-th call of [ws.send] with a given frame, the exception it
    raises if any. *)
Record websocket := WebSocket {
  ws_ident : Z;
  ws_send_raises : nat → string → option exn
}.

(** What one call of [ws.receive()] delivers. *)
Inductive delivery :=
| Closed                      (* returns None *)
| Frame (raw : string)        (* returns a message *)
| Broken (e : exn).           (* raises *)

Definition ws_receive (d : delivery) : M (option string) :=
  match d with
  | Closed => ret None
  | Frame raw => note (Received raw);; ret (Some raw)
  | Broken e => raise e
  end.

Definition ws_send (sock : websocket) (frame : string) : M unit :=
  λ w, match ws_send_raises sock (writes w) frame with
       | Some e =>
           (Raise e, World (connections w) (clock w) (ticks w) (S (writes w))
                           (wire w) (trace w))
       | None =>
           (Ok tt, World (connections w) (clock w) (ticks w) (S (writes w))
                         (frame :: wire w) (trace w))
       end.

(** ** safe_send *)
Definition safe_send (sock : websocket) (message : pyval) (cid : string) : M bool :=
  ok ← try_except
         (frame ← lift_sum (json_dumps message);
          ws_send sock frame;;
          ret true)
         (λ e, ret false);
  note (CallSend message ok);;
  ret ok.

(** ** Values inside the handler *)

(** [type(v).__name__] *)
Definition type_name (v : pyval) : string :=
  match v with
  | PNone => "NoneType"
  | PBool _ => "bool"
  | PInt _ => "int"
  | PFloat _ => "float"
  | PStr _ => "str"
  | PList _ => "list"
  | PDict _ => "dict"
  end.

(** [v.get(key, default)]: only a dict has the method. *)
Definition py_get (v : pyval) (k : string) (default : pyval) : M pyval :=
  match v with
  | PDict d => ret (dict_get k default d)
  | _ => raise (AttributeError
                  ("'" +:+ type_name v +:+ "' object has no attribute 'get'"))
  end.

(** [len(v)] *)
Definition py_len (v : pyval) : M Z :=
  match v with
  | PStr s => ret (str_len s)
  | PList l => ret (Z.of_nat (length l))
  | PDict d => ret (Z.of_nat (length d))
  | _ => raise (TypeError
                  ("object of type '" +:+ type_name v +:+ "' has no len()"))
  end.

(** [f"{v}"] *)
Definition py_str (v : pyval) : string :=
  match v with
  | PStr s => s
  | PInt n => pretty n
  | PBool true => "True"
  | PBool false => "False"
  | PNone => "None"
  | _ => py_repr v
  end.

(** ** The responses of [ws_handler], one per branch *)

Definition welcome_msg (cid : string) (t : float) : pyval :=
  PDict [("type", PStr "system_ready");
         ("message", PStr "🤖 Test connection successful!");
         ("connection_id", PStr cid);
         ("server_time", PInt (float_trunc t))].

Definition pong (t : float) (original : pyval) (since : float) : pyval :=
  PDict [("type", PStr "pong");
         ("timestamp", PInt (float_trunc t));
         ("original_timestamp", original);
         ("server_connection_time", PFloat since)].

Definition test_response (data : pyval) (t : float) (cid : string)
    (received : Z) (uptime : float) : pyval :=
  PDict [("type", PStr "test_response");
         ("message", PStr "✅ Test successful!");
         ("echo_data", data);
         ("server_time", PInt (float_trunc t));
         ("connection_stats",
          PDict [("id", PStr cid);
                 ("messages_received", PInt received);
                 ("uptime", PFloat uptime)])].

Definition heartbeat_ack (t : float) (uptime : float) : pyval :=
  PDict [("type", PStr "heartbeat_ack");
         ("timestamp", PInt (float_trunc t));
         ("connection_uptime", PFloat uptime)].

Definition audio_received (audio_size : Z) (t : float) : pyval :=
  PDict [("type", PStr "audio_received");
         ("message", PStr ("🎵 Audio chunk received (" +:+ pretty audio_size +:+ " bytes)"));
         ("size", PInt audio_size);
         ("timestamp", PInt (float_trunc t))].

Definition echo (msg_type : pyval) (message : pyval) (t : float) : pyval :=
  PDict [("type", PStr "echo");
         ("original_type", msg_type);
         ("message", PStr ("📡 Echo: " +:+ py_str msg_type));
         ("original_message", message);
         ("timestamp", PInt (float_trunc t))].

Definition invalid_json (text : string) (t : float) : pyval :=
  PDict [("type", PStr "error");
         ("message", PStr "Invalid JSON format");
         ("error", PStr text);
         ("timestamp", PInt (float_trunc t))].

Definition processing_error (t : float) : pyval :=
  PDict [("type", PStr "error");
         ("message", PStr "Server processing error");
         ("timestamp", PInt (float_trunc t))].

(** The [if / elif] chain on [msg_type] (lines 126-174). The operands are
    evaluated in the order Python evaluates them. *)
Definition respond (cid : string) (message msg_type : pyval) : M pyval :=
  if eq_str msg_type "ping" then
    t ← time_time;
    original ← py_get message "timestamp" PNone;
    now ← time_time;
    conn ← conn_lookup cid;
    ret (pong t original (float_sub now (connected_at conn)))
  else if eq_str msg_type "test" then
    data ← py_get message "data" (PStr "");
    t ← time_time;
    conn ← conn_lookup cid;
    now ← time_time;
    conn' ← conn_lookup cid;
    ret (test_response data t cid (message_count conn)
           (float_sub now (connected_at conn')))
  else if eq_str msg_type "heartbeat" then
    t ← time_time;
    now ← time_time;
    conn ← conn_lookup cid;
    ret (heartbeat_ack t (float_sub now (connected_at conn)))
  else if eq_str msg_type "audio_stream" then
    data ← py_get message "data" (PStr "");
    audio_size ← py_len data;
    t ← time_time;
    ret (audio_received audio_size t)
  else
    t ← time_time;
    ret (echo msg_type message t).

(** ** The receive loop *)

Inductive loop_ctl := Continue | Break.

(** Lines 112-114. *)
Definition touch (cid : string) : M unit :=
  w ← get_world;
  if decide (is_Some (connections w !! cid)) then
    conn ← conn_lookup cid;
    modify (set_connections (alter (λ c,
      ConnInfo (ws c) (connected_at c) (last_ping c) (message_count conn + 1)) cid));;
    now ← time_time;
    _ ← conn_lookup cid;
    modify (set_connections (alter (λ c,
      ConnInfo (ws c) (connected_at c) now (message_count c)) cid))
  else ret tt.

(** The body of the inner [try] (lines 118-188). *)
Definition process (sock : websocket) (cid raw : string) : M loop_ctl :=
  message ← lift_sum (json_loads raw);
  msg_type ← py_get message "type" (PStr "unknown");
  response ← respond cid message msg_type;
  if truthy response then
    ok ← safe_send sock response cid;
    if ok then ret Continue else ret Break
  else ret Continue.

(** The inner [try] with its two handlers (lines 117-211). *)
Definition on_message (sock : websocket) (cid raw : string) : M loop_ctl :=
  try_except (process sock cid raw)
    (λ e, match e with
          | JSONDecodeError _ =>
              t ← time_time;
              ok ← safe_send sock (invalid_json (exn_str e) t) cid;
              if ok then ret Continue else ret Break
          | _ =>
              t ← time_time;
              ok ← safe_send sock (processing_error t) cid;
              if ok then ret Continue else ret Break
          end).

(** One turn of [while True] (lines 103-220). *)
Definition iteration (sock : websocket) (cid : string) (d : delivery) : M loop_ctl :=
  try_except
    (raw_message ← ws_receive d;
     match raw_message with
     | None => ret Break
     | Some raw => touch cid;; on_message sock cid raw
     end)
    (λ e, ret Break).

(** [while True]: the script lists what the successive [ws.receive()]
    calls deliver; when it is used up the thread is blocked in receive. *)
Fixpoint message_loop (sock : websocket) (cid : string) (script : list delivery) : M unit :=
  match script with
  | [] => pending
  | d :: rest =>
      ctl ← iteration sock cid d;
      match ctl with
      | Break => ret tt
      | Continue => message_loop sock cid rest
      end
  end.

(** ** ws_handler *)

(** [f"conn_{int(time.time() * 1000)}_{id(ws) % 10000}"] *)
Definition connection_id (t : float) (sock : websocket) : string :=
  "conn_" +:+ pretty (float_trunc (float_mul t (float_of_int 1000)))
          +:+ "_" +:+ pretty (ws_ident sock `mod` 10000).

(** The outer [try] block (lines 84-220). *)
Definition handler_body (sock : websocket) (cid : string) (script : list delivery) : M unit :=
  add_connection (ws_ident sock) cid;;
  t ← time_time;
  ok ← safe_send sock (welcome_msg cid t) cid;
  if ok then message_loop sock cid script else ret tt.

(** [try / except Exception / finally] around it (lines 83-229). *)
Definition handler_session (sock : websocket) (cid : string) (script : list delivery) : M unit :=
  try_finally
    (try_except (handler_body sock cid script) (λ e, ret tt))
    (remove_connection cid).

Definition ws_handler (sock : websocket) (script : list delivery) : M unit :=
  t ← time_time;
  handler_session sock (connection_id t sock) script.
End Server.

(** ** The effect of each operation on the world

    Closed forms of the worlds that the operations leave behind; the
    equations relating them to the code are proved below. *)
Section Effects.
Context `{PyLib}.

(** The value [safe_send] returns in a given world: [True] exactly when
    the payload serializes and the socket takes the frame. *)
Definition send_ok (sock : websocket) (message : pyval) (w : world) : bool :=
  match json_dumps message with
  | inr frame =>
      match ws_send_raises sock (writes w) frame with
      | None => true
      | Some _ => false
      end
  | inl _ => false
  end.

(** The frames on the wire after [safe_send]. *)
Definition wire_after (sock : websocket) (message : pyval) (w : world) : list string :=
  match json_dumps message with
  | inr frame =>
      match ws_send_raises sock (writes w) frame with
      | None => frame :: wire w
      | Some _ => wire w
      end
  | inl _ => wire w
  end.

Definition writes_after (message : pyval) (w : world) : nat :=
  match json_dumps message with
  | inr _ => S (writes w)
  | inl _ => writes w
  end.

(** The world [safe_send] leaves behind. *)
Definition sent (sock : websocket) (message : pyval) (w : world) : world :=
  World (connections w) (clock w) (ticks w) (writes_after message w)
        (wire_after sock message w)
        (CallSend message (send_ok sock message w) :: trace w).

(** The world after one [time.time()]. *)
Definition tick (w : world) : world :=
  World (connections w) (clock w) (S (ticks w)) (writes w) (wire w) (trace w).

Definition now (w : world) : float := clock w (ticks w).

Definition noted (e : event) (w : world) : world :=
  World (connections w) (clock w) (ticks w) (writes w) (wire w) (e :: trace w).

(** [add_connection] stores a fresh record under the id, whatever was
    there. *)
Definition added (sock : Z) (cid : string) (w : world) : world :=
  World (<[cid := ConnInfo sock (clock w (ticks w)) (clock w (S (ticks w))) 0]>
           (connections w))
        (clock w) (S (S (ticks w))) (writes w) (wire w) (CallAdd cid :: trace w).

(** [remove_connection] deletes the record; when there is one it also
    reads the clock for the log line. *)
Definition removed (cid : string) (w : world) : world :=
  World (delete cid (connections w)) (clock w)
        (if decide (is_Some (connections w !! cid)) then S (ticks w) else ticks w)
        (writes w) (wire w) (CallRemove cid :: trace w).

(** Lines 112-114 on a registered connection: one more message, and the
    time of the last activity. *)
Definition touched (cid : string) (w : world) : world :=
  match connections w !! cid with
  | Some c =>
      World (<[cid := ConnInfo (ws c) (connected_at c) (clock w (ticks w))
                               (message_count c + 1)]> (connections w))
            (clock w) (S (ticks w)) (writes w) (wire w) (trace w)
  | None => w
  end.

(** A type that is none of the four known ones falls to the last branch. *)
Definition unknown_type (msg_type : pyval) : Prop :=
  msg_type ≠ PStr "ping" ∧ msg_type ≠ PStr "test" ∧
  msg_type ≠ PStr "heartbeat" ∧ msg_type ≠ PStr "audio_stream".

(** The outcome of a turn that ends by sending [payload] from world [w]. *)
Definition replied (sock : websocket) (payload : pyval) (w : world)
    : outcome loop_ctl * world :=
  (Ok (if send_ok sock payload w then Continue else Break), sent sock payload w).

(** The two [except] clauses of the inner [try]. *)
Definition error_reply (e : exn) (t : float) : pyval :=
  match e with
  | JSONDecodeError text => invalid_json text t
  | _ => processing_error t
  end.

(** How many times [remove_connection cid] was called. *)
Fixpoint removals (cid : string) (tr : list event) : nat :=
  match tr with
  | [] => 0%nat
  | CallRemove c :: tr' =>
      if decide (c = cid) then S (removals cid tr') else removals cid tr'
  | _ :: tr' => removals cid tr'
  end.

(** How many messages [ws.receive()] returned. *)
Fixpoint received (tr : list event) : nat :=
  match tr with
  | [] => 0%nat
  | Received _ :: tr' => S (received tr')
  | _ :: tr' => received tr'
  end.

(** The payloads handed to [safe_send], newest first. *)
Fixpoint sends (tr : list event) : list (pyval * bool) :=
  match tr with
  | [] => []
  | CallSend payload ok :: tr' => (payload, ok) :: sends tr'
  | _ :: tr' => sends tr'
  end.

(** A field of a response. *)
Definition field (k : string) (v : pyval) : option pyval :=
  match v with
  | PDict d => assoc_get k d
  | _ => None
  end.

(** [w1] differs from [w] by clock readings only. *)
Definition clock_only (w w1 : world) : Prop :=
  connections w1 = connections w ∧ clock w1 = clock w ∧
  writes w1 = writes w ∧ wire w1 = wire w ∧ trace w1 = trace w.

(** What the receive loop guarantees between the world [w] it starts in
    and the world [w'] it stops or blocks in: it returns or blocks and
    never raises, never calls [remove_connection], leaves the other
    records alone, never creates a record, and adds to the record of
    [cid] exactly the number of messages received in between. *)
Definition loop_post (cid : string) (w : world) (r : outcome unit) (w' : world) : Prop :=
  (r = Ok tt ∨ r = Pending)
  ∧ (∀ k, removals k (trace w') = removals k (trace w))
  ∧ (received (trace w) ≤ received (trace w'))%nat
  ∧ (∀ k, k ≠ cid → connections w' !! k = connections w !! k)
  ∧ (connections w !! cid = None → connections w' !! cid = None)
  ∧ (∀ c, connections w !! cid = Some c →
       ∃ c', connections w' !! cid = Some c'
             ∧ ws c' = ws c ∧ connected_at c' = connected_at c
             ∧ message_count c' = message_count c
                  + (Z.of_nat (received (trace w')) - Z.of_nat (received (trace w)))).

(** *** Operations of two threads

    The server is started with [threaded=True] and [ConnectionManager]
    holds no lock, so another thread can run between two statements of
    an operation. [get_connection_info] reads the registry twice:
    [len(self.connections)] on line 44 and the comprehension of lines
    45-51. *)

(** The operations that handler threads run on the registry. *)
Inductive registry_op :=
| OpAdd (sock : Z) (cid : string)       (* add_connection *)
| OpRemove (cid : string)               (* remove_connection *)
| OpTouch (cid : string).               (* lines 112-114 *)

Definition run_op (op : registry_op) : M unit :=
  match op with
  | OpAdd sock cid => add_connection sock cid
  | OpRemove cid => remove_connection cid
  | OpTouch cid => touch cid
  end.

(** [get_connection_info] in the schedule where another thread runs [op]
    between its two reads. *)
Definition get_connection_info_during (op : registry_op) : M conn_report :=
  total ← read_total;
  run_op op;;
  views ← read_views;
  ret (ConnReport total views).

(** The views are those of the records of [m]: same ids, and for each id
    the [connected_at] and [message_count] of its record. *)
Definition views_describe (views : gmap string conn_view)
    (m : gmap string conn_info) : Prop :=
  (∀ cid, views !! cid = None ↔ m !! cid = None)
  ∧ ∀ cid c v, m !! cid = Some c → views !! cid = Some v →
      view_connected_at v = connected_at c
      ∧ view_message_count v = message_count c.

(** The report is a copy of the registry [m]. *)
Definition describes (report : conn_report) (m : gmap string conn_info) : Prop :=
  total_connections report = Z.of_nat (size m)
  ∧ views_describe (report_connections report) m.

(** "[snapshot] is atomic with respect to [op]": whenever the two
    overlap, the report is a copy of the registry as it was before [op]
    or as it is after [op]. *)
Definition snapshot_atomic_wrt (op : registry_op) (w : world) : Prop :=
  ∀ report w', get_connection_info_during op w = (Ok report, w') →
    describes report (connections w)
    ∨ describes report (connections (run_op op w).2).

(** The contract "[add] fails if the id is already present, and does not
    insert" for one call of [add_connection]. *)
Definition add_rejects_duplicate (sock : Z) (cid : string) (w : world) : Prop :=
  is_Some (connections w !! cid) →
  ∃ e, (add_connection sock cid w).1 = Raise e
       ∧ connections (add_connection sock cid w).2 = connections w.

(** The sentence "with the id absent from the registry, a message of any
    type other than ping, test and heartbeat is answered with an echo
    response", for one message. *)
Definition other_types_echo (sock : websocket) (cid raw : string)
    (d : list (string * pyval)) (w : world) : Prop :=
  json_loads raw = inr (PDict d) →
  connections w !! cid = None →
  dict_get "type" (PStr "unknown") d ≠ PStr "ping" →
  dict_get "type" (PStr "unknown") d ≠ PStr "test" →
  dict_get "type" (PStr "unknown") d ≠ PStr "heartbeat" →
  ∃ payload ok,
    sends (trace (iteration sock cid (Frame raw) w).2) = (payload, ok) :: sends (trace w)
    ∧ field "type" payload = Some (PStr "echo").

(** The sentence "a message that fails JSON decoding is answered with the
    error response whose message is Invalid JSON format", for one
    message. *)
Definition decode_failure_is_invalid_json (sock : websocket) (cid raw : string)
    (w : world) : Prop :=
  (∃ e, json_loads raw = inl e) →
  ∃ payload ok,
    sends (trace (iteration sock cid (Frame raw) w).2) = (payload, ok) :: sends (trace w)
    ∧ field "message" payload = Some (PStr "Invalid JSON format").

(** The world in which a received message is handled: the message is
    noted and lines 112-114 have run. *)
Definition arrived (cid raw : string) (w : world) : world :=
  touched cid (noted (Received raw) w).

(** A delivery that ends the loop: EOF or a receive error. *)
Definition ends_loop (d : delivery) : Prop :=
  d = Closed ∨ ∃ e, d = Broken e.

(** The frames that the sends of a trace put on the wire, newest first:
    one for each [safe_send] that returned [True]. *)
Fixpoint frames_of (l : list (pyval * bool)) : list string :=
  match l with
  | [] => []
  | (payload, ok) :: l' =>
      match ok, json_dumps payload with
      | true, inr frame => frame :: frames_of l'
      | _, _ => frames_of l'
      end
  end.

(** The send returned [True]. *)
Definition delivered (x : pyval * bool) : Prop := x.2 = true.

(** What the receive loop guarantees about its sends, between the world
    [w] it starts in and the world [w'] it stops or blocks in: [new] lists
    them, one per message received; only the newest can have failed, and
    then the loop has ended; the wire got the frames of the successful
    ones. *)
Definition loop_sends (w : world) (r : outcome unit) (w' : world)
    (new : list (pyval * bool)) : Prop :=
  sends (trace w') = new ++ sends (trace w)
  ∧ received (trace w') = (received (trace w) + length new)%nat
  ∧ Forall delivered (tail new)
  ∧ (r = Pending → Forall delivered new)
  ∧ wire w' = frames_of new ++ wire w.

(** A computation that reads the clock at most, and never blocks. *)
Definition reads_clock_only {A} (m : M A) : Prop :=
  ∀ w r w1, m w = (r, w1) → clock_only w w1 ∧ r ≠ Pending.
End Effects.

(** ** A concrete runtime, for running the model

    Clock readings are whole seconds; [json_loads] knows a handful of
    inputs (and answers like [json.loads] on them); [json_dumps] writes
    JSON with the separators [json.dumps] uses, without escapes. *)
Module Demo.
#[export] Instance seconds : PyFloat :=
  {| float := Z; float_sub := Z.sub; float_mul := Z.mul;
     float_of_int := λ n, n; float_trunc := λ x, x;
   float_is_zero := λ x, x =? 0 |}.

Definition quote : string := String (Ascii.ascii_of_nat 34) EmptyString.
Definition quoted (s : string) : string := quote +:+ s +:+ quote.

Fixpoint dumps (v : pyval) : string :=
  match v with
  | PNone => "null"
  | PBool true => "true"
  | PBool false => "false"
  | PInt n => pretty n
  | PFloat x => pretty x
  | PStr s => quoted s
  | PList l =>
      "[" +:+ (fix go (l : list pyval) : string :=
                 match l with
                 | [] => ""
                 | [x] => dumps x
                 | x :: l' => dumps x +:+ ", " +:+ go l'
                 end) l +:+ "]"
  | PDict d =>
      "{" +:+ (fix go (d : list (string * pyval)) : string :=
                 match d with
                 | [] => ""
                 | [(k, x)] => quoted k +:+ ": " +:+ dumps x
                 | (k, x) :: d' => quoted k +:+ ": " +:+ dumps x +:+ ", " +:+ go d'
                 end) d +:+ "}"
  end.

Definition obj1 (k v : string) : string :=
  "{" +:+ quoted k +:+ ": " +:+ quoted v +:+ "}".
Definition obj2 (k1 v1 k2 v2 : string) : string :=
  "{" +:+ quoted k1 +:+ ": " +:+ quoted v1 +:+ ", "
      +:+ quoted k2 +:+ ": " +:+ quoted v2 +:+ "}".

Definition loads (raw : string) : exn + pyval :=
  if decide (raw = "null") then inr PNone
  else if decide (raw = "[1, 2]") then inr (PList [PInt 1; PInt 2])
  else if decide (raw = "{}") then inr (PDict [])
  else if decide (raw = obj1 "type" "ping") then
    inr (PDict [("type", PStr "ping")])
  else if decide (raw = "{" +:+ quoted "type" +:+ ": " +:+ quoted "ping" +:+ ", "
                            +:+ quoted "timestamp" +:+ ": 42}") then
    inr (PDict [("type", PStr "ping"); ("timestamp", PInt 42)])
  else if decide (raw = obj1 "type" "heartbeat") then
    inr (PDict [("type", PStr "heartbeat")])
  else if decide (raw = obj1 "type" "audio_stream") then
    inr (PDict [("type", PStr "audio_stream")])
  else if decide (raw = obj2 "type" "test" "data" "abc") then
    inr (PDict [("type", PStr "test"); ("data", PStr "abc")])
  else inl (JSONDecodeError "Expecting value: line 1 column 1 (char 0)").

#[export] Instance lib : PyLib :=
  {| json_loads := loads; json_dumps := λ v, inr (dumps v);
     py_repr := dumps |}.

(** A socket on which every write succeeds, and one on which the n-th
    write raises. *)
Definition good_socket : websocket := WebSocket 140230001234 (λ _ _, None).
Definition socket_failing_at (n : nat) : websocket :=
  WebSocket 140230001234
    (λ i _, if decide (i = n) then Some (OtherError "Connection closed") else None).

(** The clock starts at 1700000000 and advances one second per reading. *)
Definition start : world :=
  World ∅ (λ n, Z.of_nat n + 1700000000) 0 0 [] [].

(** The same, with a connection that has already received five
    messages. *)
Definition busy : world :=
  World {[ "conn_1699999990000_1234" := ConnInfo 140230001234 1699999990 1699999999 5 ]}
        (λ n, Z.of_nat n + 1700000000) 0 0 [] [].

Definition busy_id : string := "conn_1699999990000_1234".
Definition busy_record : conn_info :=
  ConnInfo 140230001234 1699999990 1699999999 5.

(** Messages a client may send. *)
Definition ping_42 : string :=
  "{" +:+ quoted "type" +:+ ": " +:+ quoted "ping" +:+ ", "
      +:+ quoted "timestamp" +:+ ": 42}".
Definition heartbeat_raw : string := obj1 "type" "heartbeat".
Definition audio_raw : string := obj1 "type" "audio_stream".
Definition test_abc : string := obj2 "type" "test" "data" "abc".

(** The id [ws_handler] gives to [good_socket] when started in [start]. *)
Definition first_id : string := "conn_1700000000000_1234".
End Demo.

(** The same runtime, with a [json_loads] that also knows a binary frame
    holding the one byte 0xff: [json.loads] decodes bytes as UTF-8 first,
    and that raises [UnicodeDecodeError], which is no [JSONDecodeError]. *)
Module DemoBinary.
Import Demo.

Definition frame_ff : string := String (Ascii.ascii_of_nat 255) EmptyString.

Definition loads (raw : string) : exn + pyval :=
  if decide (raw = frame_ff) then
    inl (OtherError
           "'utf-8' codec can't decode byte 0xff in position 0: invalid start byte")
  else Demo.loads raw.

Definition lib : PyLib :=
  {| json_loads := loads; json_dumps := λ v, inr (dumps v); py_repr := dumps |}.
End DemoBinary.

(** The same runtime, with a [json_loads] that also knows an audio message
    with data. *)
Module DemoAudio.
Import Demo.

Definition audio_xxxxx : string :=
  obj2 "type" "audio_stream" "data" "xxxxx".

Definition loads (raw : string) : exn + pyval :=
  if decide (raw = audio_xxxxx) then
    inr (PDict [("type", PStr "audio_stream"); ("data", PStr "xxxxx")])
  else Demo.loads raw.

Definition lib : PyLib :=
  {| json_loads := loads; json_dumps := λ v, inr (dumps v); py_repr := dumps |}.
End DemoAudio.


(** * Properties *)

(** ** Running the pieces of the handler *)

Section Monad.
Context `{PyLib}.

Lemma bind_run {A B} (m : M A) (f : A → M B) w :
  bind m f w = match m w with
               | (Ok a, w') => f a w'
               | (Raise e, w') => (Raise e, w')
               | (Pending, w') => (Pending, w')
               end.
Proof. done. Qed.

Lemma ret_run {A} (a : A) w : ret a w = (Ok a, w).
Proof. done. Qed.

Lemma raise_run {A} (e : exn) w : raise (A:=A) e w = (Raise e, w).
Proof. done. Qed.

End Monad.

(** Run the first statement of a block with its equation [lem]. *)
Tactic Notation "step" uconstr(lem) :=
  rewrite bind_run; rewrite lem by done; lazy beta iota.

(** Decide the comparisons of [msg_type] with the literals of the chain. *)
Ltac pick_branch :=
  unfold respond;
  repeat match goal with
         | |- context [eq_str (PStr ?a) ?b] =>
             let v := eval vm_compute in (eq_str (PStr a) b) in
             change (eq_str (PStr a) b) with v
         end;
  lazy beta iota; unfold py_get.

Section Runs.
Context `{PyLib}.

Lemma safe_send_run sock message cid w :
  safe_send sock message cid w = (Ok (send_ok sock message w), sent sock message w).
Proof.
  unfold safe_send, sent, send_ok, wire_after, writes_after, bind, try_except,
    lift_sum, ws_send, note, modify, ret, raise.
  destruct (json_dumps message) as [e|frame]; simpl; [done|].
  destruct (ws_send_raises sock (writes w) frame); done.
Qed.

Lemma time_time_run w : time_time w = (Ok (now w), tick w).
Proof. done. Qed.

Lemma note_run e w : note e w = (Ok tt, noted e w).
Proof. done. Qed.

Lemma conn_lookup_some cid w c :
  connections w !! cid = Some c → conn_lookup cid w = (Ok c, w).
Proof. intros Hc. unfold conn_lookup, bind, get_world. by rewrite Hc. Qed.

Lemma conn_lookup_none cid w :
  connections w !! cid = None → conn_lookup cid w = (Raise (KeyError cid), w).
Proof. intros Hc. unfold conn_lookup, bind, get_world. by rewrite Hc. Qed.

Lemma add_connection_run sock cid w :
  add_connection sock cid w = (Ok tt, added sock cid w).
Proof. done. Qed.

Lemma remove_connection_run cid w :
  remove_connection cid w = (Ok tt, removed cid w).
Proof.
  unfold remove_connection, removed, bind, note, modify, get_world. simpl.
  destruct (decide (is_Some (connections w !! cid))) as [[c Hc]|Hn]; simpl.
  - unfold conn_lookup, bind, get_world. simpl. rewrite Hc. done.
  - unfold ret. f_equal. f_equal.
    symmetry. apply delete_id. by apply eq_None_not_Some.
Qed.

Lemma touch_run cid w : touch cid w = (Ok tt, touched cid w).
Proof.
  unfold touch, touched, bind, get_world.
  destruct (decide (is_Some (connections w !! cid))) as [[c Hc]|Hn].
  - rewrite Hc. unfold conn_lookup, bind, get_world, modify, set_connections,
      time_time, ret. simpl. rewrite Hc. simpl.
    rewrite lookup_alter_eq, Hc. simpl. f_equal. f_equal.
    apply map_eq. intros k. destruct (decide (k = cid)) as [->|Hne].
    + rewrite !lookup_alter_eq, Hc, lookup_insert_eq. done.
    + rewrite !lookup_alter_ne, lookup_insert_ne by done. done.
  - apply eq_None_not_Some in Hn. rewrite Hn. done.
Qed.

(** *** The [if / elif] chain *)

Lemma eq_str_true v lit : eq_str v lit = true ↔ v = PStr lit.
Proof.
  destruct v; simpl; try (split; [discriminate|congruence]).
  rewrite bool_decide_eq_true. split; congruence.
Qed.

Lemma respond_ping cid d w c :
  connections w !! cid = Some c →
  respond cid (PDict d) (PStr "ping") w =
    (Ok (pong (now w) (dict_get "timestamp" PNone d)
              (float_sub (now (tick w)) (connected_at c))),
     tick (tick w)).
Proof.
  intros Hc. pick_branch.
  step time_time_run. step ret_run. step time_time_run.
  by step (conn_lookup_some cid (tick (tick w)) c).
Qed.

Lemma respond_ping_absent cid d w :
  connections w !! cid = None →
  respond cid (PDict d) (PStr "ping") w = (Raise (KeyError cid), tick (tick w)).
Proof.
  intros Hc. pick_branch.
  step time_time_run. step ret_run. step time_time_run.
  by step (conn_lookup_none cid (tick (tick w))).
Qed.

Lemma respond_test cid d w c :
  connections w !! cid = Some c →
  respond cid (PDict d) (PStr "test") w =
    (Ok (test_response (dict_get "data" (PStr "") d) (now w) cid (message_count c)
                       (float_sub (now (tick w)) (connected_at c))),
     tick (tick w)).
Proof.
  intros Hc. pick_branch.
  step ret_run. step time_time_run.
  step (conn_lookup_some cid (tick w) c). step time_time_run.
  by step (conn_lookup_some cid (tick (tick w)) c).
Qed.

Lemma respond_test_absent cid d w :
  connections w !! cid = None →
  respond cid (PDict d) (PStr "test") w = (Raise (KeyError cid), tick w).
Proof.
  intros Hc. pick_branch.
  step ret_run. step time_time_run.
  by step (conn_lookup_none cid (tick w)).
Qed.

Lemma respond_heartbeat cid d w c :
  connections w !! cid = Some c →
  respond cid (PDict d) (PStr "heartbeat") w =
    (Ok (heartbeat_ack (now w) (float_sub (now (tick w)) (connected_at c))),
     tick (tick w)).
Proof.
  intros Hc. pick_branch.
  step time_time_run. step time_time_run.
  by step (conn_lookup_some cid (tick (tick w)) c).
Qed.

Lemma respond_heartbeat_absent cid d w :
  connections w !! cid = None →
  respond cid (PDict d) (PStr "heartbeat") w = (Raise (KeyError cid), tick (tick w)).
Proof.
  intros Hc. pick_branch.
  step time_time_run. step time_time_run.
  by step (conn_lookup_none cid (tick (tick w))).
Qed.

Lemma respond_audio_stream cid d w :
  respond cid (PDict d) (PStr "audio_stream") w =
    match py_len (dict_get "data" (PStr "") d) w with
    | (Ok audio_size, _) => (Ok (audio_received audio_size (now w)), tick w)
    | (Raise e, _) => (Raise e, w)
    | (Pending, _) => (Pending, w)
    end.
Proof.
  pick_branch. step ret_run. rewrite bind_run.
  destruct (dict_get "data" (PStr "") d); done.
Qed.

Lemma respond_echo cid message msg_type w :
  unknown_type msg_type →
  respond cid message msg_type w = (Ok (echo msg_type message (now w)), tick w).
Proof.
  intros (Hp & Ht & Hh & Ha). unfold respond.
  destruct (eq_str msg_type "ping") eqn:E1; [by apply eq_str_true in E1|].
  destruct (eq_str msg_type "test") eqn:E2; [by apply eq_str_true in E2|].
  destruct (eq_str msg_type "heartbeat") eqn:E3; [by apply eq_str_true in E3|].
  destruct (eq_str msg_type "audio_stream") eqn:E4; [by apply eq_str_true in E4|].
  done.
Qed.

(** Every branch builds a dict literal with a ["type"] key, which is
    truthy, so the [if response:] test of line 177 always passes. *)
Lemma respond_truthy cid message msg_type w response w' :
  respond cid message msg_type w = (Ok response, w') → truthy response = true.
Proof.
  unfold respond, bind, py_get, py_len, conn_lookup, get_world, time_time, ret, raise.
  intros Hr.
  repeat match type of Hr with
         | context [if ?b then _ else _] => destruct b
         | context [match ?x with _ => _ end] => destruct x
         end; simpl in Hr; try discriminate; by inversion Hr.
Qed.

(** *** One message *)

Lemma process_replies sock cid raw w message msg_type response w1 :
  json_loads raw = inr message →
  py_get message "type" (PStr "unknown") w = (Ok msg_type, w) →
  respond cid message msg_type w = (Ok response, w1) →
  process sock cid raw w = replied sock response w1.
Proof.
  intros Hl Hg Hr. unfold process, bind. rewrite Hl. simpl.
  unfold ret at 1. rewrite Hg, Hr.
  rewrite (respond_truthy _ _ _ _ _ _ Hr), safe_send_run.
  unfold replied. by destruct (send_ok sock response w1).
Qed.

Lemma process_raises sock cid raw w message msg_type e w1 :
  json_loads raw = inr message →
  py_get message "type" (PStr "unknown") w = (Ok msg_type, w) →
  respond cid message msg_type w = (Raise e, w1) →
  process sock cid raw w = (Raise e, w1).
Proof.
  intros Hl Hg Hr. unfold process, bind. rewrite Hl. simpl.
  unfold ret at 1. by rewrite Hg, Hr.
Qed.

Lemma on_message_replies sock cid raw w response w1 :
  process sock cid raw w = replied sock response w1 →
  on_message sock cid raw w = replied sock response w1.
Proof. intros Hp. unfold on_message, try_except. by rewrite Hp. Qed.

Lemma on_message_raises sock cid raw w e w1 :
  process sock cid raw w = (Raise e, w1) →
  on_message sock cid raw w = replied sock (error_reply e (now w1)) (tick w1).
Proof.
  intros Hp. unfold on_message, try_except. rewrite Hp.
  unfold replied.
  destruct e; unfold bind; rewrite time_time_run, safe_send_run; simpl;
    match goal with |- context [send_ok ?s ?p ?x] => by destruct (send_ok s p x) end.
Qed.

(** *** What a turn leaves untouched *)

Lemma clock_only_refl w : clock_only w w.
Proof. by repeat split. Qed.

Lemma clock_only_tick w w1 : clock_only w w1 → clock_only w (tick w1).
Proof. by intros (?&?&?&?&?). Qed.

Lemma clock_only_trans w w1 w2 :
  clock_only w w1 → clock_only w1 w2 → clock_only w w2.
Proof.
  intros (?&?&?&?&?) (?&?&?&?&?). repeat split; congruence.
Qed.

Lemma ret_reads_clock_only {A} (a : A) : reads_clock_only (ret a).
Proof. intros w r w1 [= <- <-]. split; [apply clock_only_refl|done]. Qed.

Lemma raise_reads_clock_only {A} e : reads_clock_only (raise (A:=A) e).
Proof. intros w r w1 [= <- <-]. split; [apply clock_only_refl|done]. Qed.

Lemma time_time_reads_clock_only : reads_clock_only time_time.
Proof.
  intros w r w1 [= <- <-]. split; [|done].
  apply clock_only_tick, clock_only_refl.
Qed.

Lemma conn_lookup_reads_clock_only cid : reads_clock_only (conn_lookup cid).
Proof.
  intros w r w1. unfold conn_lookup. rewrite bind_run. simpl.
  destruct (connections w !! cid); intros [= <- <-];
    (split; [apply clock_only_refl|done]).
Qed.

Lemma py_get_reads_clock_only v k default : reads_clock_only (py_get v k default).
Proof.
  destruct v; first [apply ret_reads_clock_only | apply raise_reads_clock_only].
Qed.

Lemma py_len_reads_clock_only v : reads_clock_only (py_len v).
Proof.
  destruct v; first [apply ret_reads_clock_only | apply raise_reads_clock_only].
Qed.

Lemma bind_reads_clock_only {A B} (m : M A) (f : A → M B) :
  reads_clock_only m → (∀ a, reads_clock_only (f a)) → reads_clock_only (bind m f).
Proof.
  intros Hm Hf w r w2. rewrite bind_run.
  destruct (m w) as [r1 w1] eqn:E. destruct (Hm _ _ _ E) as [Hc Hp].
  destruct r1 as [a|e|]; [|by intros [= <- <-]|done].
  intros Hfa. destruct (Hf a _ _ _ Hfa) as [Hc' Hp'].
  split; [by eapply clock_only_trans|done].
Qed.

Lemma respond_reads_clock_only cid message msg_type :
  reads_clock_only (respond cid message msg_type).
Proof.
  unfold respond.
  repeat match goal with |- context [if ?b then _ else _] => destruct b end;
    repeat first
      [ apply ret_reads_clock_only
      | apply time_time_reads_clock_only
      | apply conn_lookup_reads_clock_only
      | apply py_get_reads_clock_only
      | apply py_len_reads_clock_only
      | apply bind_reads_clock_only; [|intros ?] ].
Qed.

Lemma respond_frame cid message msg_type w r w1 :
  respond cid message msg_type w = (r, w1) → clock_only w w1 ∧ r ≠ Pending.
Proof. apply respond_reads_clock_only. Qed.

Lemma process_cases sock cid raw w :
  (∃ response w1, process sock cid raw w = replied sock response w1 ∧ clock_only w w1)
  ∨ (∃ e w1, process sock cid raw w = (Raise e, w1) ∧ clock_only w w1).
Proof.
  destruct (json_loads raw) as [e|message] eqn:Hl.
  { right. exists e, w. split; [|apply clock_only_refl].
    unfold process. rewrite bind_run, Hl. done. }
  destruct (py_get message "type" (PStr "unknown") w) as [rt wt] eqn:Hg.
  assert (wt = w ∧ (rt = Ok (match message with
                               | PDict d => dict_get "type" (PStr "unknown") d
                               | _ => PNone end) ∨ ∃ e, rt = Raise e)) as [-> Hrt].
  { unfold py_get, ret, raise in Hg. destruct message; inversion Hg; eauto. }
  destruct Hrt as [->|[e ->]].
  - destruct (respond cid message
                (match message with
                 | PDict d => dict_get "type" (PStr "unknown") d
                 | _ => PNone end) w) as [r w1] eqn:Hr.
    destruct (respond_frame _ _ _ _ _ _ Hr) as [Hf Hp].
    destruct r as [response|e|]; [left|right|done].
    + exists response, w1. split; [|done]. by eapply process_replies.
    + exists e, w1. split; [|done]. by eapply process_raises.
  - right. exists e, w. split; [|apply clock_only_refl].
    unfold process. rewrite bind_run, Hl. simpl.
    by rewrite bind_run, Hg.
Qed.

(** Whatever arrives, the turn ends with exactly one [safe_send]. *)
Lemma on_message_total sock cid raw w :
  ∃ payload w1, on_message sock cid raw w = replied sock payload w1 ∧ clock_only w w1.
Proof.
  destruct (process_cases sock cid raw w) as [(p & w1 & Hp & Hf)|(e & w1 & Hp & Hf)].
  - exists p, w1. split; [|done]. by apply on_message_replies.
  - exists (error_reply e (now w1)), (tick w1). split.
    + by apply on_message_raises.
    + by apply clock_only_tick.
Qed.

(** *** One turn of the loop *)

Lemma iteration_closed sock cid w : iteration sock cid Closed w = (Ok Break, w).
Proof. done. Qed.

Lemma iteration_broken sock cid e w : iteration sock cid (Broken e) w = (Ok Break, w).
Proof. done. Qed.

Lemma iteration_frame sock cid raw w :
  iteration sock cid (Frame raw) w =
    on_message sock cid raw (touched cid (noted (Received raw) w)).
Proof.
  unfold iteration, try_except, ws_receive.
  rewrite bind_run. step note_run. rewrite ret_run. lazy beta iota.
  step touch_run.
  destruct (on_message_total sock cid raw (touched cid (noted (Received raw) w)))
    as (p & w1 & -> & _). done.
Qed.

Lemma message_loop_nil sock cid w : message_loop sock cid [] w = (Pending, w).
Proof. done. Qed.

Lemma message_loop_stop sock cid d rest w :
  d = Closed ∨ (∃ e, d = Broken e) →
  message_loop sock cid (d :: rest) w = (Ok tt, w).
Proof. by intros [->|[e ->]]. Qed.

(** After a message the loop goes on when the reply was sent and ends
    when it was not. *)
Lemma message_loop_frame sock cid raw rest w payload w1 :
  on_message sock cid raw (touched cid (noted (Received raw) w))
    = replied sock payload w1 →
  message_loop sock cid (Frame raw :: rest) w =
    if send_ok sock payload w1
    then message_loop sock cid rest (sent sock payload w1)
    else (Ok tt, sent sock payload w1).
Proof.
  intros Hm. cbn [message_loop]. rewrite bind_run, iteration_frame, Hm.
  unfold replied. by destruct (send_ok sock payload w1).
Qed.
End Runs.

(** ** The receive loop as a whole *)
Section Loop.
Context `{PyLib}.

Lemma touched_connections_noted cid e w :
  connections (touched cid (noted e w)) = connections (touched cid w).
Proof. unfold touched. simpl. by destruct (connections w !! cid). Qed.

Lemma touched_trace cid w : trace (touched cid w) = trace w.
Proof. unfold touched. by destruct (connections w !! cid). Qed.

Lemma touched_lookup cid w c :
  connections w !! cid = Some c →
  connections (touched cid w) !! cid =
    Some (ConnInfo (ws c) (connected_at c) (now w) (message_count c + 1)).
Proof. intros Hc. unfold touched. rewrite Hc. simpl. by rewrite lookup_insert_eq. Qed.

Lemma touched_lookup_ne cid w k :
  k ≠ cid → connections (touched cid w) !! k = connections w !! k.
Proof.
  intros Hk. unfold touched. destruct (connections w !! cid); [|done].
  simpl. by rewrite lookup_insert_ne.
Qed.

Lemma touched_absent cid w :
  connections w !! cid = None → touched cid w = w.
Proof. intros Hc. unfold touched. by rewrite Hc. Qed.

(** One message: the loop receives it, counts it, answers it with one
    [safe_send], and goes on exactly when that send succeeded. *)
Lemma message_loop_turn sock cid raw rest w :
  ∃ payload w1,
    clock_only (touched cid (noted (Received raw) w)) w1 ∧
    on_message sock cid raw (touched cid (noted (Received raw) w))
      = replied sock payload w1 ∧
    message_loop sock cid (Frame raw :: rest) w =
      if send_ok sock payload w1
      then message_loop sock cid rest (sent sock payload w1)
      else (Ok tt, sent sock payload w1).
Proof.
  destruct (on_message_total sock cid raw (touched cid (noted (Received raw) w)))
    as (p & w1 & Hm & Hf).
  exists p, w1. split; [done|]. split; [done|]. by apply message_loop_frame.
Qed.

Lemma loop_post_here cid w r : r = Ok tt ∨ r = Pending → loop_post cid w r w.
Proof.
  intros Hr. repeat split; eauto with lia.
Qed.

Lemma loop_post_turn sock cid raw payload w w1 r w' :
  clock_only (touched cid (noted (Received raw) w)) w1 →
  loop_post cid (sent sock payload w1) r w' →
  loop_post cid w r w'.
Proof.
  intros (Hconn & _ & _ & _ & Htr) (Hr & Hrem & Hrec & Hoth & Habs & Hcnt).
  rewrite touched_connections_noted in Hconn.
  rewrite touched_trace in Htr.
  simpl in Htr, Hrem, Hrec, Hoth, Habs, Hcnt.
  rewrite Htr in Hrem, Hrec, Hcnt. simpl in Hrem, Hrec, Hcnt.
  rewrite Hconn in Hoth, Habs, Hcnt.
  split; [done|]. split; [done|]. split; [lia|].
  split; [intros k Hk; by rewrite Hoth, touched_lookup_ne|].
  split.
  - intros Hc. apply Habs. by rewrite touched_absent.
  - intros c Hc.
    destruct (Hcnt _ (touched_lookup cid w c Hc)) as (c' & Hc' & ? & ? & Hm).
    exists c'. simpl in *. repeat split; [done..|lia].
Qed.

(** The guarantee holds from any world and for any script. *)
Lemma message_loop_inv sock cid script :
  ∀ w r w', message_loop sock cid script w = (r, w') → loop_post cid w r w'.
Proof.
  induction script as [|d rest IH]; intros w r w' Hrun.
  - rewrite message_loop_nil in Hrun. inversion Hrun; subst.
    apply loop_post_here; eauto.
  - destruct d as [|raw|e].
    + rewrite message_loop_stop in Hrun by eauto. inversion Hrun; subst.
      apply loop_post_here; eauto.
    + destruct (message_loop_turn sock cid raw rest w) as (p & w1 & Hf & _ & Heq).
      rewrite Heq in Hrun. apply (loop_post_turn sock cid raw p w w1); [done|].
      destruct (send_ok sock p w1).
      * by apply IH.
      * inversion Hrun; subst. apply loop_post_here; eauto.
    + rewrite message_loop_stop in Hrun by eauto. inversion Hrun; subst.
      apply loop_post_here; eauto.
Qed.
End Loop.

(** ** Registration, the loop and cleanup together *)
Section Lifecycle.
Context `{PyLib}.

Lemma handler_body_run sock cid script w :
  handler_body sock cid script w =
    let w1 := tick (added (ws_ident sock) cid w) in
    let p := welcome_msg cid (now (added (ws_ident sock) cid w)) in
    if send_ok sock p w1
    then message_loop sock cid script (sent sock p w1)
    else (Ok tt, sent sock p w1).
Proof.
  unfold handler_body. step add_connection_run. step time_time_run.
  step safe_send_run. cbv zeta.
  by destruct (send_ok _ _ _).
Qed.

(** From registration on, the record of the connection is there with the
    number of messages received so far. *)
Lemma handler_body_post sock cid script w r w' :
  handler_body sock cid script w = (r, w') →
  (r = Ok tt ∨ r = Pending)
  ∧ (∀ k, removals k (trace w') = removals k (trace w))
  ∧ ∃ c, connections w' !! cid = Some c
         ∧ message_count c
             = Z.of_nat (received (trace w')) - Z.of_nat (received (trace w)).
Proof.
  rewrite handler_body_run. cbv zeta.
  set (w1 := tick (added (ws_ident sock) cid w)).
  set (p := welcome_msg cid (now (added (ws_ident sock) cid w))).
  assert (Hreg : connections (sent sock p w1) !! cid
                 = Some (ConnInfo (ws_ident sock) (now w) (now (tick w)) 0)).
  { simpl. by rewrite lookup_insert_eq. }
  destruct (send_ok sock p w1).
  - intros Hrun. apply message_loop_inv in Hrun.
    destruct Hrun as (Hr & Hrem & Hrec & _ & _ & Hcnt).
    destruct (Hcnt _ Hreg) as (c' & Hc' & _ & _ & Hm).
    simpl in *. split; [done|]. split; [done|]. exists c'. split; [done|lia].
  - intros [= <- <-]. split; [by left|]. split; [done|].
    eexists. split; [exact Hreg|]. simpl. lia.
Qed.

(** The [finally] clause runs once the guarded block has returned or
    raised, whatever the block is. *)
Lemma finally_removes {A} (m : M A) (cid : string) w r1 w1 :
  m w = (r1, w1) → r1 ≠ Pending →
  try_finally m (remove_connection cid) w = (r1, removed cid w1).
Proof.
  intros Hm Hp. unfold try_finally. rewrite Hm.
  destruct r1; [| |done]; by step remove_connection_run.
Qed.

Lemma handler_session_run sock cid script w r1 w1 :
  handler_body sock cid script w = (r1, w1) →
  handler_session sock cid script w =
    match r1 with
    | Pending => (Pending, w1)
    | _ => (Ok tt, removed cid w1)
    end.
Proof.
  intros Hb. destruct (handler_body_post _ _ _ _ _ _ Hb) as ([->| ->] & _).
  - apply finally_removes; [|done]. unfold try_except. by rewrite Hb.
  - unfold handler_session, try_finally, try_except. by rewrite Hb.
Qed.

(** *** get_connection_info *)

Lemma views_of_run items :
  ∀ w, ∃ vs w1,
    views_of items w = (Ok vs, w1) ∧ vs.*1 = items.*1 ∧ clock_only w w1
    ∧ ∀ cid v, (cid, v) ∈ vs →
        ∃ info, (cid, info) ∈ items
                ∧ view_connected_at v = connected_at info
                ∧ view_message_count v = message_count info.
Proof.
  induction items as [|[cid info] rest IH]; intros w.
  - exists [], w. repeat split. intros cid v Hin. by apply elem_of_nil in Hin.
  - cbn [views_of]. unfold view_of.
    rewrite bind_run. step time_time_run. rewrite ret_run. lazy beta iota.
    destruct (IH (tick w)) as (vs & w1 & Hv & Hk & Hf & Hin).
    step Hv. rewrite ret_run. eexists _, w1. split; [done|].
    split; [rewrite !fmap_cons; by rewrite Hk|].
    split.
    { eapply clock_only_trans; [|exact Hf]. apply clock_only_tick, clock_only_refl. }
    intros k v [[= -> ->]|Hv']%elem_of_cons.
    + exists info. split; [left|done].
    + destruct (Hin _ _ Hv') as (info' & ? & ?). exists info'. split; [by right|done].
Qed.

Lemma read_views_run w :
  ∃ views w1, read_views w = (Ok views, w1)
    ∧ views_describe views (connections w) ∧ clock_only w w1.
Proof.
  unfold read_views, get_world.
  destruct (views_of_run (map_to_list (connections w)) w)
    as (vs & w1 & Hv & Hk & Hf & Hin).
  exists (list_to_map vs), w1. split.
  { rewrite !bind_run. lazy beta iota. by rewrite Hv. }
  split; [|done]. split.
  - intros cid. rewrite <- not_elem_of_list_to_map, Hk.
    rewrite list_elem_of_fmap. split.
    + intros Hn. destruct (connections w !! cid) as [c|] eqn:Hc; [|done].
      destruct Hn. exists (cid, c). split; [done|]. by apply elem_of_map_to_list.
    + intros Hc ([k c] & -> & Hi). apply elem_of_map_to_list in Hi.
      simpl in Hc. congruence.
  - intros cid c v Hc Hv'. apply elem_of_list_to_map_2 in Hv'.
    destruct (Hin _ _ Hv') as (info & Hi & ?).
    apply elem_of_map_to_list in Hi. by replace c with info by congruence.
Qed.

Lemma read_total_run w :
  read_total w = (Ok (Z.of_nat (size (connections w))), w).
Proof. done. Qed.

(** Run on its own, the report is a copy of the registry. *)
Lemma get_connection_info_run w :
  ∃ report w1, get_connection_info w = (Ok report, w1)
    ∧ describes report (connections w) ∧ clock_only w w1.
Proof.
  destruct (read_views_run w) as (views & w1 & Hv & Hd & Hf).
  exists (ConnReport (Z.of_nat (size (connections w))) views), w1.
  split; [|done].
  unfold get_connection_info. step read_total_run. by step Hv.
Qed.

(** *** The loop and longer scripts *)

Lemma iteration_total sock cid d w :
  ∃ ctl w1, iteration sock cid d w = (Ok ctl, w1).
Proof.
  destruct d as [|raw|e]; [by eexists _, _| |by eexists _, _].
  rewrite iteration_frame.
  destruct (on_message_total sock cid raw (touched cid (noted (Received raw) w)))
    as (p & w1 & -> & _).
  by eexists _, _.
Qed.

Lemma message_loop_app sock cid script more :
  ∀ w, message_loop sock cid (script ++ more) w =
         match message_loop sock cid script w with
         | (Pending, w1) => message_loop sock cid more w1
         | done => done
         end.
Proof.
  induction script as [|d rest IH]; intros w; [done|].
  cbn [app message_loop]. rewrite !bind_run.
  destruct (iteration_total sock cid d w) as ([|] & w1 & ->); lazy beta iota;
    [apply IH|done].
Qed.

Lemma message_loop_pending sock cid script :
  ∀ w w', message_loop sock cid script w = (Pending, w') →
    received (trace w') = (received (trace w) + length script)%nat.
Proof.
  induction script as [|d rest IH]; intros w w' Hrun.
  - rewrite message_loop_nil in Hrun. inversion Hrun. simpl. lia.
  - destruct d as [|raw|e]; [by rewrite message_loop_stop in Hrun by (left; done)|
                             |by rewrite message_loop_stop in Hrun by (right; eauto)].
    destruct (message_loop_turn sock cid raw rest w)
      as (p & w1 & (_ & _ & _ & _ & Htr) & _ & Heq).
    rewrite Heq in Hrun. rewrite touched_trace in Htr. simpl in Htr.
    destruct (send_ok sock p w1); [|done].
    apply IH in Hrun. simpl in Hrun. rewrite Htr in Hrun. simpl in *. lia.
Qed.

(** A script that contains an EOF or a receive error ends the loop. *)
Lemma message_loop_ends sock cid script :
  Exists ends_loop script →
  ∀ w, ∃ w', message_loop sock cid script w = (Ok tt, w').
Proof.
  induction 1 as [d rest Hd|d rest _ IH]; intros w.
  - exists w. by apply message_loop_stop.
  - destruct d as [|raw|e];
      [exists w; apply message_loop_stop; by left|
      |exists w; apply message_loop_stop; right; eauto].
    destruct (message_loop_turn sock cid raw rest w) as (p & w1 & _ & _ & ->).
    destruct (send_ok sock p w1); eauto.
Qed.
End Lifecycle.

(** ** One message, by kind *)
Section Turns.
Context `{PyLib}.

Lemma arrived_lookup cid raw w c :
  connections w !! cid = Some c →
  connections (arrived cid raw w) !! cid =
    Some (ConnInfo (ws c) (connected_at c) (now w) (message_count c + 1)).
Proof.
  intros Hc. unfold arrived. rewrite touched_connections_noted.
  by apply touched_lookup.
Qed.

Lemma arrived_absent cid raw w :
  connections w !! cid = None → arrived cid raw w = noted (Received raw) w.
Proof. intros Hc. unfold arrived. by rewrite touched_absent. Qed.

Lemma arrived_trace cid raw w : trace (arrived cid raw w) = Received raw :: trace w.
Proof. unfold arrived. by rewrite touched_trace. Qed.

Lemma iteration_arrived sock cid raw w :
  iteration sock cid (Frame raw) w = on_message sock cid raw (arrived cid raw w).
Proof. apply iteration_frame. Qed.

(** A decoded dict whose branch builds [response]. *)
Lemma turn_replies sock cid raw d w response w1 :
  json_loads raw = inr (PDict d) →
  respond cid (PDict d) (dict_get "type" (PStr "unknown") d) (arrived cid raw w)
    = (Ok response, w1) →
  iteration sock cid (Frame raw) w = replied sock response w1.
Proof.
  intros Hl Hr. rewrite iteration_arrived.
  apply on_message_replies. by eapply process_replies.
Qed.

(** A decoded dict whose branch raises [e]. *)
Lemma turn_raises sock cid raw d w e w1 :
  json_loads raw = inr (PDict d) →
  respond cid (PDict d) (dict_get "type" (PStr "unknown") d) (arrived cid raw w)
    = (Raise e, w1) →
  process sock cid raw (arrived cid raw w) = (Raise e, w1)
  ∧ iteration sock cid (Frame raw) w = replied sock (error_reply e (now w1)) (tick w1).
Proof.
  intros Hl Hr.
  assert (Hp : process sock cid raw (arrived cid raw w) = (Raise e, w1))
    by by eapply process_raises.
  split; [done|]. rewrite iteration_arrived. by apply on_message_raises.
Qed.

(** The loop after a turn that ended with one [safe_send]. *)
Lemma loop_after_turn sock cid raw rest w payload w1 :
  iteration sock cid (Frame raw) w = replied sock payload w1 →
  message_loop sock cid (Frame raw :: rest) w =
    if send_ok sock payload w1
    then message_loop sock cid rest (sent sock payload w1)
    else (Ok tt, sent sock payload w1).
Proof.
  intros Hi. apply message_loop_frame. by rewrite <- iteration_frame.
Qed.
End Turns.

(** * The connection registry *)
Section Registry.
Context `{PyLib}.

(** C3, as the code has it: [add_connection] never fails. It stores a
    fresh record (no message counted, both timestamps read from the clock)
    under the id, in place of whatever record the id had, and leaves every
    other id alone. *)
Theorem add_connection_overwrites (sock : Z) (cid : string) (w : world) :
  ∃ w', add_connection sock cid w = (Ok tt, w')
        ∧ connections w' !! cid
            = Some (ConnInfo sock (clock w (ticks w)) (clock w (S (ticks w))) 0)
        ∧ ∀ k, k ≠ cid → connections w' !! k = connections w !! k.
Proof.
  exists (added sock cid w). split; [apply add_connection_run|].
  split; simpl.
  - by rewrite lookup_insert_eq.
  - intros k Hk. by rewrite lookup_insert_ne.
Qed.

(** C8: [safe_send] always returns a boolean and never raises. It returns
    [True] exactly when [json.dumps] produced a frame and [ws.send] took
    it; in that case the frame is the newest on the wire, and when it
    returns [False] nothing was written. The call is recorded with the
    value it returned, and the registry is not touched. *)
Theorem safe_send_never_raises (sock : websocket) (message : pyval)
    (cid : string) (w : world) :
  ∃ (ok : bool) (w' : world),
    safe_send sock message cid w = (Ok ok, w')
    ∧ (ok = true ↔
         ∃ frame, json_dumps message = inr frame
                  ∧ ws_send_raises sock (writes w) frame = None)
    ∧ (∀ frame, json_dumps message = inr frame →
                ws_send_raises sock (writes w) frame = None →
                ok = true ∧ wire w' = frame :: wire w)
    ∧ (ok = false → wire w' = wire w)
    ∧ trace w' = CallSend message ok :: trace w
    ∧ connections w' = connections w.
Proof.
  exists (send_ok sock message w), (sent sock message w).
  split; [apply safe_send_run|].
  unfold sent, send_ok, wire_after. simpl.
  destruct (json_dumps message) as [e|frame].
  { repeat split; try done. by intros (frame & ? & _). }
  destruct (ws_send_raises sock (writes w) frame) as [e|] eqn:Hs.
  - repeat split; try done; try congruence.
    intros (frame' & [= <-] & ?). congruence.
  - repeat split; try done; try congruence.
    intros _. by exists frame.
Qed.

Lemma run_op_run op w : ∃ w_op, run_op op w = (Ok tt, w_op).
Proof.
  destruct op as [sock cid|cid|cid]; eexists;
    [apply add_connection_run|apply remove_connection_run|apply touch_run].
Qed.

(** C2, as the code has it: no lock guards the registry.
    [get_connection_info] run on its own returns a copy of the registry of
    that moment. When another thread runs an [add_connection], a
    [remove_connection] or the count update of lines 112-114 between its
    two reads, [total_connections] is the number of records before that
    operation and [connections] holds the views of the records after it;
    the report is a copy of the registry after the operation only if the
    operation did not change the number of records. *)
Theorem snapshot_reads_before_and_after (op : registry_op) (w : world) :
  (∃ report w', get_connection_info w = (Ok report, w')
                ∧ describes report (connections w))
  ∧ ∃ w_op report w',
      run_op op w = (Ok tt, w_op)
      ∧ get_connection_info_during op w = (Ok report, w')
      ∧ total_connections report = Z.of_nat (size (connections w))
      ∧ views_describe (report_connections report) (connections w_op)
      ∧ (describes report (connections w_op)
         ↔ size (connections w_op) = size (connections w)).
Proof.
  split.
  { destruct (get_connection_info_run w) as (report & w' & Hg & Hd & _). eauto. }
  destruct (run_op_run op w) as [w_op Hop].
  destruct (read_views_run w_op) as (views & w1 & Hv & Hd & _).
  exists w_op, (ConnReport (Z.of_nat (size (connections w))) views), w1.
  split; [done|]. split.
  { unfold get_connection_info_during. step read_total_run. step Hop. by step Hv. }
  split; [done|]. split; [done|].
  unfold describes. simpl. split; [intros [Hsz _]; lia|intros ->; done].
Qed.
End Registry.

(** * The life of one connection *)
Section Handler.
Context `{PyLib}.

(** C1: once [ws_handler] has terminated, by whatever path, it has
    returned normally, [remove_connection] was called for the id of the
    connection exactly once more than before the handler started, the
    id is no longer in the registry, and [get_connection_info] taken then
    does not list it. *)
Theorem cleanup_removes_once (sock : websocket) (script : list delivery)
    (w w' : world) (r : outcome unit) :
  ws_handler sock script w = (r, w') →
  r ≠ Pending →
  let cid := connection_id (now w) sock in
  r = Ok tt
  ∧ removals cid (trace w') = S (removals cid (trace w))
  ∧ connections w' !! cid = None
  ∧ ∃ report w'', get_connection_info w' = (Ok report, w'')
                  ∧ report_connections report !! cid = None.
Proof.
  intros Hrun Hterm cid. unfold ws_handler in Hrun.
  rewrite bind_run, time_time_run in Hrun. lazy beta iota in Hrun.
  fold cid in Hrun.
  destruct (handler_body sock cid script (tick w)) as [r1 w1] eqn:Hb.
  rewrite (handler_session_run _ _ _ _ _ _ Hb) in Hrun.
  destruct (handler_body_post _ _ _ _ _ _ Hb) as (Hr1 & Hrem & _).
  assert (r1 = Ok tt) as ->.
  { destruct Hr1 as [->| ->]; [done|]. inversion Hrun. congruence. }
  inversion Hrun; subst r w'. clear Hrun.
  assert (Hgone : connections (removed cid w1) !! cid = None).
  { simpl. apply lookup_delete_eq. }
  split; [done|]. split.
  { simpl. rewrite decide_True by done. by rewrite Hrem. }
  split; [done|].
  destruct (get_connection_info_run (removed cid w1))
    as (rep & w2 & Hg & (_ & Hk & _) & _).
  exists rep, w2. split; [done|]. by apply Hk.
Qed.

(** C4: from registration on, the [message_count] of the connection's
    record is the number of messages [ws.receive()] has returned to the
    handler, whether or not they decoded; when the handler is blocked
    after a script of N messages the count is N; and receiving more never
    lowers the count. *)
Theorem message_count_counts_received (sock : websocket) (cid : string)
    (script : list delivery) (w w' : world) (r : outcome unit) :
  handler_body sock cid script w = (r, w') →
  ∃ c, connections w' !! cid = Some c
       ∧ message_count c
           = Z.of_nat (received (trace w')) - Z.of_nat (received (trace w))
       ∧ (r = Pending → message_count c = Z.of_nat (length script))
       ∧ ∀ more r2 w2,
           handler_body sock cid (script ++ more) w = (r2, w2) →
           ∃ c2, connections w2 !! cid = Some c2
                 ∧ message_count c ≤ message_count c2.
Proof.
  intros Hb.
  destruct (handler_body_post _ _ _ _ _ _ Hb) as (Hr & _ & c & Hc & Hm).
  exists c. split; [done|]. split; [done|].
  rewrite handler_body_run in Hb. cbv zeta in Hb.
  split.
  - intros ->.
    destruct (send_ok sock _ _); [|done].
    apply message_loop_pending in Hb. simpl in Hb. lia.
  - intros more r2 w2 Hb2. rewrite handler_body_run in Hb2. cbv zeta in Hb2.
    destruct (send_ok sock _ _).
    + rewrite message_loop_app, Hb in Hb2.
      destruct Hr as [->| ->].
      * inversion Hb2; subst. exists c. split; [done|lia].
      * apply message_loop_inv in Hb2.
        destruct Hb2 as (_ & _ & Hrec & _ & _ & Hcnt).
        destruct (Hcnt _ Hc) as (c2 & Hc2 & _ & _ & Hm2).
        exists c2. split; [done|lia].
    + rewrite Hb in Hb2. inversion Hb2; subst. exists c. split; [done|lia].
Qed.
End Handler.

(** * The replies *)
Section Protocol.
Context `{PyLib}.

(** C5, as the code has it: a message on which [json.loads] raises is
    answered with one error response and the connection stays open. When
    the exception is a [JSONDecodeError] the response has the message
    "Invalid JSON format" and the text of the exception as its error; for
    any other exception (a binary frame that is not UTF-8, nesting too deep
    for the decoder) it is the response "Server processing error", which
    has no error field. Either way the loop goes on with the rest of the
    script when that send succeeded and ends only when it failed, and on a
    registered connection a heartbeat that comes next is answered with its
    heartbeat_ack. *)
Theorem decode_failure_keeps_connection (sock : websocket) (cid raw : string)
    (e : exn) (rest : list delivery) (w : world) :
  json_loads raw = inl e →
  let w0 := arrived cid raw w in
  let reply := error_reply e (now w0) in
  field "type" reply = Some (PStr "error")
  ∧ (∀ text, e = JSONDecodeError text →
       reply = invalid_json text (now w0)
       ∧ field "message" reply = Some (PStr "Invalid JSON format")
       ∧ field "error" reply = Some (PStr text))
  ∧ ((∀ text, e ≠ JSONDecodeError text) →
       reply = processing_error (now w0)
       ∧ field "message" reply = Some (PStr "Server processing error")
       ∧ field "error" reply = None)
  ∧ iteration sock cid (Frame raw) w = replied sock reply (tick w0)
  ∧ sends (trace (iteration sock cid (Frame raw) w).2)
      = (reply, send_ok sock reply (tick w0)) :: sends (trace w)
  ∧ message_loop sock cid (Frame raw :: rest) w =
      (if send_ok sock reply (tick w0)
       then message_loop sock cid rest (sent sock reply (tick w0))
       else (Ok tt, sent sock reply (tick w0)))
  ∧ ∀ hb d c,
      json_loads hb = inr (PDict d) →
      dict_get "type" (PStr "unknown") d = PStr "heartbeat" →
      connections w !! cid = Some c →
      send_ok sock reply (tick w0) = true →
      ∃ ack w2,
        field "type" ack = Some (PStr "heartbeat_ack")
        ∧ iteration sock cid (Frame hb) (sent sock reply (tick w0))
            = replied sock ack w2
        ∧ sends (trace (sent sock ack w2))
            = (ack, send_ok sock ack w2) :: (reply, true) :: sends (trace w).
Proof.
  intros Hl w0 reply.
  assert (Hi : iteration sock cid (Frame raw) w = replied sock reply (tick w0)).
  { rewrite iteration_arrived.
    apply (on_message_raises sock cid raw w0 e w0).
    unfold process. rewrite bind_run, Hl. done. }
  split; [by destruct e|].
  split; [by intros text ->|].
  split.
  { intros Hother. destruct e as [text| | | |]; [by destruct (Hother text)|done..]. }
  split; [done|].
  split; [rewrite Hi; simpl; unfold w0; by rewrite arrived_trace|].
  split; [by apply loop_after_turn|].
  intros hb d c Hhb Hty Hc Hok.
  set (w1 := sent sock reply (tick w0)).
  assert (Hc1 : connections w1 !! cid
                = Some (ConnInfo (ws c) (connected_at c) (now w) (message_count c + 1))).
  { simpl. by apply arrived_lookup. }
  pose proof (arrived_lookup cid hb w1 _ Hc1) as Hc2.
  eexists _, _. split; [|split].
  2: { eapply turn_replies; [done|]. rewrite Hty.
       by rewrite (respond_heartbeat _ _ _ _ Hc2). }
  - done.
  - cbn [sends trace sent tick]. rewrite arrived_trace. unfold w1.
    cbn [sends trace sent tick]. rewrite Hok. unfold w0.
    rewrite arrived_trace. done.
Qed.

(** C6: on a registered connection a decoded dict whose type is "ping" is
    answered with a pong whose original_timestamp is the timestamp of the
    request ([None] when it has none) and whose server_connection_time is
    the clock reading taken for it minus the [connected_at] of the
    record. *)
Theorem ping_yields_pong (sock : websocket) (cid raw : string)
    (d : list (string * pyval)) (w : world) (c : conn_info) :
  json_loads raw = inr (PDict d) →
  dict_get "type" (PStr "unknown") d = PStr "ping" →
  connections w !! cid = Some c →
  let w0 := arrived cid raw w in
  let reply := pong (now w0) (dict_get "timestamp" PNone d)
                    (float_sub (now (tick w0)) (connected_at c)) in
  iteration sock cid (Frame raw) w = replied sock reply (tick (tick w0))
  ∧ field "type" reply = Some (PStr "pong")
  ∧ (∀ T, assoc_get "timestamp" d = Some T →
          field "original_timestamp" reply = Some T)
  ∧ (assoc_get "timestamp" d = None →
          field "original_timestamp" reply = Some PNone)
  ∧ field "server_connection_time" reply
      = Some (PFloat (float_sub (now (tick w0)) (connected_at c))).
Proof.
  intros Hl Hty Hc w0 reply.
  pose proof (arrived_lookup cid raw w c Hc) as Hc0.
  split.
  { eapply turn_replies; [done|]. rewrite Hty.
    by rewrite (respond_ping _ _ _ _ Hc0). }
  split; [done|]. unfold reply, pong, field, dict_get. simpl.
  split; [by intros T ->|]. split; [by intros ->|done].
Qed.

(** C7: on a registered connection a decoded dict whose type is "test"
    is answered with a test_response whose echo_data is the data of the
    request (the empty string when it has none) and whose
    messages_received is the count of the record with this message
    already counted; as the first message after the welcome that count
    is 1. *)
Theorem test_yields_test_response (sock : websocket) (cid raw : string)
    (d : list (string * pyval)) :
  json_loads raw = inr (PDict d) →
  dict_get "type" (PStr "unknown") d = PStr "test" →
  (∀ w c,
     connections w !! cid = Some c →
     let w0 := arrived cid raw w in
     let reply := test_response (dict_get "data" (PStr "") d) (now w0) cid
                    (message_count c + 1)
                    (float_sub (now (tick w0)) (connected_at c)) in
     iteration sock cid (Frame raw) w = replied sock reply (tick (tick w0))
     ∧ field "type" reply = Some (PStr "test_response")
     ∧ field "echo_data" reply = Some (dict_get "data" (PStr "") d)
     ∧ (field "connection_stats" reply ≫= field "messages_received")
         = Some (PInt (message_count c + 1)))
  ∧ (∀ w rest,
       send_ok sock (welcome_msg cid (now (added (ws_ident sock) cid w)))
               (tick (added (ws_ident sock) cid w)) = true →
       ∃ reply w1,
         handler_body sock cid (Frame raw :: rest) w =
           (if send_ok sock reply w1
            then message_loop sock cid rest (sent sock reply w1)
            else (Ok tt, sent sock reply w1))
         ∧ field "type" reply = Some (PStr "test_response")
         ∧ field "echo_data" reply = Some (dict_get "data" (PStr "") d)
         ∧ (field "connection_stats" reply ≫= field "messages_received")
             = Some (PInt 1)).
Proof.
  intros Hl Hty.
  assert (Hturn : ∀ w c,
     connections w !! cid = Some c →
     iteration sock cid (Frame raw) w =
       replied sock
         (test_response (dict_get "data" (PStr "") d) (now (arrived cid raw w)) cid
            (message_count c + 1)
            (float_sub (now (tick (arrived cid raw w))) (connected_at c)))
         (tick (tick (arrived cid raw w)))).
  { intros w c Hc. pose proof (arrived_lookup cid raw w c Hc) as Hc0.
    eapply turn_replies; [done|]. rewrite Hty.
    by rewrite (respond_test _ _ _ _ Hc0). }
  split.
  - intros w c Hc w0 reply. split; [by apply Hturn|done].
  - intros w rest Hok. rewrite handler_body_run. cbv zeta. rewrite Hok.
    set (w1 := sent sock _ _).
    assert (Hc : connections w1 !! cid
                 = Some (ConnInfo (ws_ident sock) (now w) (now (tick w)) 0)).
    { simpl. by rewrite lookup_insert_eq. }
    eexists _, _. split; [apply loop_after_turn, (Hturn _ _ Hc)|]. done.
Qed.

(** C9: a message that decodes to something that is not a dict gets no
    typed and no echo response: reading its type raises [AttributeError],
    and the one reply is the error response "Server processing error";
    the loop goes on when that send succeeded. *)
Theorem non_object_json_gets_processing_error (sock : websocket) (cid raw : string)
    (v : pyval) (rest : list delivery) (w : world) :
  json_loads raw = inr v →
  (∀ d, v ≠ PDict d) →
  let w0 := arrived cid raw w in
  let reply := processing_error (now w0) in
  (∃ msg, process sock cid raw w0 = (Raise (AttributeError msg), w0))
  ∧ iteration sock cid (Frame raw) w = replied sock reply (tick w0)
  ∧ field "type" reply = Some (PStr "error")
  ∧ field "message" reply = Some (PStr "Server processing error")
  ∧ sends (trace (iteration sock cid (Frame raw) w).2)
      = (reply, send_ok sock reply (tick w0)) :: sends (trace w)
  ∧ message_loop sock cid (Frame raw :: rest) w =
      (if send_ok sock reply (tick w0)
       then message_loop sock cid rest (sent sock reply (tick w0))
       else (Ok tt, sent sock reply (tick w0))).
Proof.
  intros Hl Hv w0 reply.
  assert (Hp : ∃ msg, process sock cid raw w0 = (Raise (AttributeError msg), w0)).
  { unfold process. rewrite bind_run, Hl. simpl. rewrite bind_run.
    destruct v; try by eexists. by destruct (Hv d). }
  destruct Hp as [msg Hp].
  assert (Hi : iteration sock cid (Frame raw) w = replied sock reply (tick w0)).
  { rewrite iteration_arrived.
    by apply (on_message_raises sock cid raw w0 (AttributeError msg) w0). }
  split; [by exists msg|]. split; [done|]. do 2 (split; [done|]).
  split; [|by apply loop_after_turn].
  rewrite Hi. simpl. unfold w0. by rewrite arrived_trace.
Qed.

(** C10, as the code has it: with the id absent from the registry, a
    decoded dict of type "ping", "test" or "heartbeat" gets no typed
    response: the registry lookup raises [KeyError] and the reply is the
    error response "Server processing error". A dict of type
    "audio_stream" is answered as always, with audio_received when its
    data has a length and with the same error response when it has none,
    and a dict of any remaining type is answered with its echo. *)
Theorem unregistered_replies (sock : websocket) (cid raw : string)
    (d : list (string * pyval)) (w : world) :
  json_loads raw = inr (PDict d) →
  connections w !! cid = None →
  let msg_type := dict_get "type" (PStr "unknown") d in
  let w0 := noted (Received raw) w in
  (msg_type = PStr "ping" ∨ msg_type = PStr "heartbeat" →
     process sock cid raw w0 = (Raise (KeyError cid), tick (tick w0))
     ∧ iteration sock cid (Frame raw) w =
         replied sock (processing_error (now (tick (tick w0)))) (tick (tick (tick w0))))
  ∧ (msg_type = PStr "test" →
     process sock cid raw w0 = (Raise (KeyError cid), tick w0)
     ∧ iteration sock cid (Frame raw) w =
         replied sock (processing_error (now (tick w0))) (tick (tick w0)))
  ∧ (msg_type = PStr "audio_stream" →
     (∀ n, py_len (dict_get "data" (PStr "") d) w0 = (Ok n, w0) →
        iteration sock cid (Frame raw) w =
          replied sock (audio_received n (now w0)) (tick w0))
     ∧ (∀ e, py_len (dict_get "data" (PStr "") d) w0 = (Raise e, w0) →
        iteration sock cid (Frame raw) w =
          replied sock (processing_error (now w0)) (tick w0)))
  ∧ (unknown_type msg_type →
     iteration sock cid (Frame raw) w =
       replied sock (echo msg_type (PDict d) (now w0)) (tick w0)).
Proof.
  intros Hl Hc msg_type w0.
  assert (Hw0 : arrived cid raw w = w0) by by apply arrived_absent.
  assert (Hc0 : connections w0 !! cid = None) by done.
  pose proof (turn_raises sock cid raw d w) as Hraise.
  pose proof (turn_replies sock cid raw d w) as Hreply.
  rewrite Hw0 in Hraise, Hreply. fold msg_type in Hraise, Hreply.
  split; [|split; [|split]].
  - intros Hty.
    apply (Hraise (KeyError cid) (tick (tick w0)) Hl).
    destruct Hty as [-> | ->];
      [by apply respond_ping_absent | by apply respond_heartbeat_absent].
  - intros ->. apply (Hraise (KeyError cid) (tick w0) Hl).
    by apply respond_test_absent.
  - intros Hty. split.
    + intros n Hn. apply Hreply; [done|].
      by rewrite Hty, respond_audio_stream, Hn.
    + intros e He.
      destruct (Hraise e w0 Hl) as [_ Hi].
      { by rewrite Hty, respond_audio_stream, He. }
      rewrite Hi. unfold py_len, ret, raise in He.
      by destruct (dict_get "data" (PStr "") d); inversion He.
  - intros Hty. apply Hreply; [done|]. by apply respond_echo.
Qed.
End Protocol.

(** * More of the module *)

(** ** What the loop sends *)
Section Sends.
Context `{PyLib}.

Lemma frames_of_app l1 l2 : frames_of (l1 ++ l2) = frames_of l1 ++ frames_of l2.
Proof.
  induction l1 as [|[p ok] l1 IH]; [done|]. simpl.
  destruct ok; [|done]. destruct (json_dumps p); [done|]. simpl. by rewrite IH.
Qed.

Lemma sent_wire sock payload w :
  wire (sent sock payload w)
    = frames_of [(payload, send_ok sock payload w)] ++ wire w.
Proof.
  unfold sent, wire_after, send_ok. simpl.
  destruct (json_dumps payload) as [e|frame]; [done|].
  by destruct (ws_send_raises sock (writes w) frame).
Qed.

Lemma sent_wire_failed sock payload w :
  send_ok sock payload w = false → wire (sent sock payload w) = wire w.
Proof. intros Hok. by rewrite sent_wire, Hok. Qed.

Lemma loop_sends_here w r : loop_sends w r w [].
Proof. repeat split; eauto with lia. Qed.

Lemma loop_sends_turn sock cid raw payload w w1 r w' new :
  clock_only (arrived cid raw w) w1 →
  send_ok sock payload w1 = true →
  loop_sends (sent sock payload w1) r w' new →
  loop_sends w r w' (new ++ [(payload, true)]).
Proof.
  intros (_ & _ & _ & Hwire & Htr) Hok (Hs & Hrec & Htail & Hpend & Hw).
  rewrite arrived_trace in Htr. unfold arrived in Hwire.
  assert (Hwire0 : wire w1 = wire w).
  { rewrite Hwire. unfold touched. simpl. by destruct (connections w !! cid). }
  rewrite sent_wire, Hok, Hwire0 in Hw.
  cbn [trace sent sends] in Hs, Hrec. rewrite Hok, Htr in Hs. rewrite Htr in Hrec.
  cbn [sends received] in Hs, Hrec.
  split; [by rewrite <- app_assoc|].
  split; [rewrite length_app; simpl; lia|].
  split.
  { destruct new as [|x new]; [by constructor|]. simpl in *.
    apply Forall_app. split; [done|]. by repeat constructor. }
  split.
  { intros Hr. apply Forall_app. split; [by apply Hpend|]. by repeat constructor. }
  by rewrite frames_of_app, <- app_assoc.
Qed.

Lemma loop_sends_last sock cid raw payload w w1 :
  clock_only (arrived cid raw w) w1 →
  loop_sends w (Ok tt) (sent sock payload w1) [(payload, send_ok sock payload w1)].
Proof.
  intros (_ & _ & _ & Hwire & Htr).
  rewrite arrived_trace in Htr. unfold arrived in Hwire.
  assert (Hwire0 : wire w1 = wire w).
  { rewrite Hwire. unfold touched. simpl. by destruct (connections w !! cid). }
  split; [cbn [trace sent sends]; by rewrite Htr|].
  split; [cbn [trace sent received]; rewrite Htr; simpl; lia|].
  split; [by constructor|]. split; [done|].
  by rewrite sent_wire, Hwire0.
Qed.

Lemma message_loop_sends sock cid script :
  ∀ w r w', message_loop sock cid script w = (r, w') →
    ∃ new, loop_sends w r w' new.
Proof.
  induction script as [|d rest IH]; intros w r w' Hrun.
  - rewrite message_loop_nil in Hrun. inversion Hrun; subst.
    exists []. apply loop_sends_here.
  - destruct d as [|raw|e].
    + rewrite message_loop_stop in Hrun by (by left). inversion Hrun; subst.
      exists []. apply loop_sends_here.
    + destruct (message_loop_turn sock cid raw rest w) as (p & w1 & Hf & _ & Heq).
      rewrite Heq in Hrun. fold (arrived cid raw w) in Hf.
      destruct (send_ok sock p w1) eqn:Hok.
      * destruct (IH _ _ _ Hrun) as [new Hnew].
        exists (new ++ [(p, true)]). by eapply loop_sends_turn.
      * inversion Hrun; subst. exists [(p, false)]. rewrite <- Hok.
        by eapply loop_sends_last.
    + rewrite message_loop_stop in Hrun by (right; eauto). inversion Hrun; subst.
      exists []. apply loop_sends_here.
Qed.
End Sends.

(** ** The registry on its own *)
Section RegistryMore.
Context `{PyLib}.

(** X1: [remove_connection] never fails and is idempotent. It leaves the id
    without a record and every other id as it was; for an id that has no
    record the registry is unchanged and the clock is not read; a second
    removal changes nothing in the registry. *)
Theorem remove_connection_idempotent (cid : string) (w : world) :
  let w1 := (remove_connection cid w).2 in
  (remove_connection cid w).1 = Ok tt
  ∧ connections w1 !! cid = None
  ∧ (∀ k, k ≠ cid → connections w1 !! k = connections w !! k)
  ∧ (connections w !! cid = None → connections w1 = connections w ∧ ticks w1 = ticks w)
  ∧ connections (remove_connection cid w1).2 = connections w1.
Proof.
  rewrite !remove_connection_run. cbn [fst snd].
  rewrite remove_connection_run. cbn [snd removed connections ticks].
  split; [done|]. split; [apply lookup_delete_eq|].
  split; [intros k Hk; by apply lookup_delete_ne|].
  split.
  - intros Hc. split; [by apply delete_id|].
    rewrite decide_False; [done|]. rewrite Hc. by intros [? ?].
  - apply delete_id, lookup_delete_eq.
Qed.

(** X2: registering an id and then removing it leaves the registry without
    that id, whatever it held before: a record that was already stored
    under the id is lost. For a fresh id the registry is back to what it
    was. *)
Theorem add_then_remove (sock : Z) (cid : string) (w : world) :
  let w2 := (remove_connection cid (add_connection sock cid w).2).2 in
  connections w2 = delete cid (connections w)
  ∧ (connections w !! cid = None → connections w2 = connections w).
Proof.
  rewrite add_connection_run, remove_connection_run.
  cbn [snd removed added connections].
  assert (Heq : delete cid (<[cid := ConnInfo sock (clock w (ticks w))
                                (clock w (S (ticks w))) 0]> (connections w))
                = delete cid (connections w)) by apply delete_insert_eq.
  split; [done|]. intros Hc. rewrite Heq. by apply delete_id.
Qed.

Lemma views_of_ticks items :
  ∀ w vs w1, views_of items w = (Ok vs, w1) →
    ticks w1 = (ticks w + length items)%nat
    ∧ ∀ cid v, (cid, v) ∈ vs →
        ∃ k, (ticks w ≤ k < ticks w1)%nat
             ∧ view_duration v = float_sub (clock w k) (view_connected_at v).
Proof.
  induction items as [|[cid info] rest IH]; intros w vs w1.
  - intros [= <- <-]. split; [simpl; lia|]. intros cid v Hin.
    by apply elem_of_nil in Hin.
  - cbn [views_of]. unfold view_of.
    rewrite bind_run. step time_time_run. rewrite ret_run. lazy beta iota.
    rewrite bind_run.
    destruct (views_of rest (tick w)) as [[vs'| |] w2] eqn:Hv; try done.
    rewrite ret_run. intros [= <- <-].
    destruct (IH _ _ _ Hv) as [Ht Hd]. simpl in Ht.
    split; [simpl; lia|].
    intros k v [[= -> ->]|Hin]%elem_of_cons.
    + exists (ticks w). split; [simpl; lia|done].
    + destruct (Hd _ _ Hin) as (n & Hn & Hdur). simpl in Hn.
      exists n. split; [lia|done].
Qed.

(** X3: the /status route only reads. It returns "healthy", the clock
    reading truncated to an int, and a report that is a copy of the
    registry; it reads the clock once for itself and once per record, each
    duration being one of those later readings minus the record's
    [connected_at]; registry, socket and trace are as before. *)
Theorem status_only_reads (w : world) :
  ∃ body w',
    status w = (Ok body, w')
    ∧ status_text body = "healthy"
    ∧ server_time body = float_trunc (now w)
    ∧ describes (status_info body) (connections w)
    ∧ clock_only w w'
    ∧ ticks w' = (ticks w + 1 + size (connections w))%nat
    ∧ ∀ cid v, report_connections (status_info body) !! cid = Some v →
        ∃ k, (ticks w < k < ticks w')%nat
             ∧ view_duration v = float_sub (clock w k) (view_connected_at v).
Proof.
  destruct (views_of_run (map_to_list (connections w)) (tick w))
    as (vs & w1 & Hv & _ & Hf & _).
  destruct (views_of_ticks _ _ _ _ Hv) as [Ht Hd].
  destruct (read_views_run (tick w)) as (views & w1' & Hrv & Hdesc & _).
  assert (Hrv' : read_views (tick w) = (Ok (list_to_map vs), w1)).
  { unfold read_views, get_world. rewrite !bind_run. lazy beta iota.
    change (connections (tick w)) with (connections w). by rewrite Hv. }
  rewrite Hrv' in Hrv. injection Hrv as <- <-.
  exists (StatusBody "healthy" (float_trunc (now w))
            (ConnReport (Z.of_nat (size (connections w))) (list_to_map vs))), w1.
  split.
  { unfold status. step time_time_run. unfold get_connection_info.
    rewrite bind_run. step read_total_run. by step Hrv'. }
  do 2 (split; [done|]). split; [done|].
  split; [eapply clock_only_trans; [|exact Hf]; apply clock_only_tick, clock_only_refl|].
  split.
  { rewrite Ht, length_map_to_list. simpl. lia. }
  intros cid v Hv'. simpl in Hv'. apply elem_of_list_to_map_2 in Hv'.
  destruct (Hd _ _ Hv') as (k & Hk & Hdur). simpl in Hk.
  exists k. split; [lia|done].
Qed.
End RegistryMore.

(** ** More replies *)
Section Replies.
Context `{PyLib}.

(** X4: a decoded dict of type "audio_stream" is answered with
    audio_received whose size is the length of its data, whether or not the
    connection is registered: the number of characters of a str, the number
    of elements of a list, 0 when there is no data key. Data that is None,
    a bool or a number has no length: the reply is then the error response
    "Server processing error". *)
Theorem audio_stream_reports_size (sock : websocket) (cid raw : string)
    (d : list (string * pyval)) (w : world) :
  json_loads raw = inr (PDict d) →
  dict_get "type" (PStr "unknown") d = PStr "audio_stream" →
  let w0 := arrived cid raw w in
  let size_reply n := replied sock (audio_received n (now w0)) (tick w0) in
  (∀ s, assoc_get "data" d = Some (PStr s) →
        iteration sock cid (Frame raw) w = size_reply (str_len s))
  ∧ (∀ l, assoc_get "data" d = Some (PList l) →
        iteration sock cid (Frame raw) w = size_reply (Z.of_nat (length l)))
  ∧ (assoc_get "data" d = None →
        iteration sock cid (Frame raw) w = size_reply 0)
  ∧ (∀ v, assoc_get "data" d = Some v →
        v = PNone ∨ (∃ b, v = PBool b) ∨ (∃ n, v = PInt n) ∨ (∃ x, v = PFloat x) →
        iteration sock cid (Frame raw) w
          = replied sock (processing_error (now w0)) (tick w0))
  ∧ ∀ n, field "size" (audio_received n (now w0)) = Some (PInt n).
Proof.
  intros Hl Hty w0 size_reply.
  pose proof (turn_replies sock cid raw d w) as Hreply.
  pose proof (turn_raises sock cid raw d w) as Hraise.
  rewrite Hty in Hreply, Hraise. fold w0 in Hreply, Hraise.
  assert (Hsized : ∀ n, py_len (dict_get "data" (PStr "") d) w0 = (Ok n, w0) →
            iteration sock cid (Frame raw) w = size_reply n).
  { intros n Hn. apply Hreply; [done|]. by rewrite respond_audio_stream, Hn. }
  split; [|split; [|split; [|split]]].
  - intros s Hd. apply Hsized. unfold dict_get. by rewrite Hd.
  - intros l Hd. apply Hsized. unfold dict_get. by rewrite Hd.
  - intros Hd. apply Hsized. unfold dict_get. by rewrite Hd.
  - intros v Hd Hv.
    assert (∃ e, py_len (dict_get "data" (PStr "") d) w0 = (Raise e, w0)) as [e He].
    { unfold dict_get. rewrite Hd.
      destruct Hv as [->|[[b ->]|[[n ->]|[x ->]]]]; by eexists. }
    destruct (Hraise e w0 Hl) as [_ Hi].
    { by rewrite respond_audio_stream, He. }
    rewrite Hi. unfold dict_get in He. rewrite Hd in He.
    destruct Hv as [->|[[b ->]|[[n ->]|[x ->]]]]; by inversion He.
  - done.
Qed.

(** X5: a decoded dict whose type is none of ping, test, heartbeat and
    audio_stream is answered with an echo that carries the type and the
    whole decoded message, whether or not the connection is registered; a
    dict without a type key is echoed with original_type "unknown". *)
Theorem unknown_type_is_echoed (sock : websocket) (cid raw : string)
    (d : list (string * pyval)) (w : world) :
  json_loads raw = inr (PDict d) →
  let msg_type := dict_get "type" (PStr "unknown") d in
  let w0 := arrived cid raw w in
  let reply := echo msg_type (PDict d) (now w0) in
  (unknown_type msg_type →
     iteration sock cid (Frame raw) w = replied sock reply (tick w0)
     ∧ field "type" reply = Some (PStr "echo")
     ∧ field "original_type" reply = Some msg_type
     ∧ field "original_message" reply = Some (PDict d)
     ∧ field "message" reply = Some (PStr ("📡 Echo: " +:+ py_str msg_type)))
  ∧ (assoc_get "type" d = None →
     msg_type = PStr "unknown"
     ∧ iteration sock cid (Frame raw) w = replied sock reply (tick w0)).
Proof.
  intros Hl msg_type w0 reply.
  assert (Hecho : unknown_type msg_type →
            iteration sock cid (Frame raw) w = replied sock reply (tick w0)).
  { intros Hty. eapply turn_replies; [done|]. by apply respond_echo. }
  split.
  - intros Hty. split; [by apply Hecho|done].
  - intros Hnone.
    assert (Hu : msg_type = PStr "unknown").
    { unfold msg_type, dict_get. by rewrite Hnone. }
    split; [done|]. apply Hecho. rewrite Hu. by repeat split.
Qed.

(** X6: on a registered connection a decoded dict of type "heartbeat" is
    answered with heartbeat_ack whose timestamp is the first clock reading
    truncated and whose connection_uptime is the second clock reading minus
    the [connected_at] of the record. *)
Theorem heartbeat_is_acknowledged (sock : websocket) (cid raw : string)
    (d : list (string * pyval)) (w : world) (c : conn_info) :
  json_loads raw = inr (PDict d) →
  dict_get "type" (PStr "unknown") d = PStr "heartbeat" →
  connections w !! cid = Some c →
  let w0 := arrived cid raw w in
  let reply := heartbeat_ack (now w0) (float_sub (now (tick w0)) (connected_at c)) in
  iteration sock cid (Frame raw) w = replied sock reply (tick (tick w0))
  ∧ field "type" reply = Some (PStr "heartbeat_ack")
  ∧ field "timestamp" reply = Some (PInt (float_trunc (now w0)))
  ∧ field "connection_uptime" reply
      = Some (PFloat (float_sub (now (tick w0)) (connected_at c))).
Proof.
  intros Hl Hty Hc w0 reply.
  pose proof (arrived_lookup cid raw w c Hc) as Hc0.
  split; [|done].
  eapply turn_replies; [done|]. rewrite Hty.
  by rewrite (respond_heartbeat _ _ _ _ Hc0).
Qed.
End Replies.

(** ** More of the handler's life *)
Section HandlerMore.
Context `{PyLib}.

Lemma ws_handler_run sock script w :
  let cid := connection_id (now w) sock in
  let p := welcome_msg cid (now (added (ws_ident sock) cid (tick w))) in
  let w1 := tick (added (ws_ident sock) cid (tick w)) in
  ws_handler sock script w =
    if send_ok sock p w1 then
      match message_loop sock cid script (sent sock p w1) with
      | (Pending, w2) => (Pending, w2)
      | (_, w2) => (Ok tt, removed cid w2)
      end
    else (Ok tt, removed cid (sent sock p w1)).
Proof.
  intros cid p w1. unfold ws_handler. step time_time_run. fold cid.
  destruct (handler_body sock cid script (tick w)) as [r1 w2] eqn:Hb.
  rewrite (handler_session_run _ _ _ _ _ _ Hb).
  rewrite handler_body_run in Hb. cbv zeta in Hb. fold p w1 in Hb.
  destruct (send_ok sock p w1).
  - rewrite Hb. by destruct r1.
  - by inversion Hb.
Qed.

(** The sends of a whole run: the welcome first, then those of the loop,
    one per message received. *)
Lemma ws_handler_sends sock script w :
  let cid := connection_id (now w) sock in
  let p := welcome_msg cid (now (added (ws_ident sock) cid (tick w))) in
  let r := (ws_handler sock script w).1 in
  let w' := (ws_handler sock script w).2 in
  ∃ new ok,
    sends (trace w') = (new ++ [(p, ok)]) ++ sends (trace w)
    ∧ received (trace w') = (received (trace w) + length new)%nat
    ∧ Forall delivered (tail (new ++ [(p, ok)]))
    ∧ (r = Pending → Forall delivered (new ++ [(p, ok)]))
    ∧ wire w' = frames_of (new ++ [(p, ok)]) ++ wire w
    ∧ (r = Ok tt ∨ r = Pending).
Proof.
  intros cid p r w'. unfold r, w'. rewrite ws_handler_run. fold cid p.
  set (w1 := tick (added (ws_ident sock) cid (tick w))).
  assert (Hs0 : sends (trace (sent sock p w1))
                = (p, send_ok sock p w1) :: sends (trace w)) by done.
  assert (Hrec0 : received (trace (sent sock p w1)) = received (trace w)) by done.
  assert (Hw0 : wire (sent sock p w1)
                = frames_of [(p, send_ok sock p w1)] ++ wire w)
    by exact (sent_wire sock p w1).
  destruct (send_ok sock p w1) eqn:Hok.
  - destruct (message_loop sock cid script (sent sock p w1)) as [r2 w2] eqn:Hloop.
    destruct (message_loop_sends _ _ _ _ _ _ Hloop)
      as (new & Hs & Hrec & Htail & Hpend & Hw).
    destruct (message_loop_inv _ _ _ _ _ _ Hloop) as (Hr2 & _).
    exists new, true.
    assert (Hgoal :
      sends (trace w2) = (new ++ [(p, true)]) ++ sends (trace w)
      ∧ received (trace w2) = (received (trace w) + length new)%nat
      ∧ Forall delivered (tail (new ++ [(p, true)]))
      ∧ (r2 = Pending → Forall delivered (new ++ [(p, true)]))
      ∧ wire w2 = frames_of (new ++ [(p, true)]) ++ wire w).
    { split; [by rewrite Hs, Hs0, <- app_assoc|].
      split; [by rewrite Hrec, Hrec0|].
      split.
      { destruct new as [|x new]; [by constructor|]. simpl in *.
        apply Forall_app. split; [done|]. by repeat constructor. }
      split.
      { intros Hp. apply Forall_app. split; [by apply Hpend|]. by repeat constructor. }
      by rewrite Hw, Hw0, frames_of_app, <- app_assoc. }
    destruct Hgoal as (G1 & G2 & G3 & G4 & G5).
    destruct Hr2 as [-> | ->]; cbn [fst snd removed trace wire sends received].
    + repeat split; try done. by left.
    + repeat split; try done. by right.
  - exists [], false. cbn [fst snd removed trace wire sends received app length].
    rewrite Hs0, Hrec0, Hw0.
    repeat split; try done. by left.
Qed.

(** X7: when the welcome cannot be sent the handler returns at once: it
    takes no message from the socket whatever the script offers, the failed
    welcome is its only send, nothing is written, and the id it had just
    registered is removed again. *)
Theorem welcome_failure_closes (sock : websocket) (script : list delivery) (w : world) :
  let cid := connection_id (now w) sock in
  let p := welcome_msg cid (now (added (ws_ident sock) cid (tick w))) in
  send_ok sock p (tick (added (ws_ident sock) cid (tick w))) = false →
  ∃ w', ws_handler sock script w = (Ok tt, w')
        ∧ received (trace w') = received (trace w)
        ∧ sends (trace w') = (p, false) :: sends (trace w)
        ∧ wire w' = wire w
        ∧ connections w' = delete cid (connections w).
Proof.
  intros cid p Hok. rewrite ws_handler_run. fold cid p. rewrite Hok.
  eexists. split; [done|]. split; [done|].
  split; [cbn [trace removed sent sends]; by rewrite Hok|].
  split; [cbn [wire removed]; by rewrite sent_wire_failed|].
  apply delete_insert_eq.
Qed.

(** X8: a handler that has returned takes nothing more from the socket:
    with any further deliveries appended to the script the run is the
    same. *)
Theorem handler_ignores_after_end (sock : websocket) (script more : list delivery)
    (w w' : world) :
  ws_handler sock script w = (Ok tt, w') →
  ws_handler sock (script ++ more) w = (Ok tt, w').
Proof.
  rewrite !ws_handler_run. cbv zeta.
  destruct (send_ok sock _ _); [|done].
  rewrite message_loop_app.
  destruct (message_loop sock _ script _) as [[[]|e|] w2]; done.
Qed.

(** X9: a receive error ends the handler exactly as an EOF does, and what
    the script holds after either of them plays no part. *)
Theorem receive_error_ends_like_eof (sock : websocket) (pre rest : list delivery)
    (e : exn) (w : world) :
  ws_handler sock (pre ++ Broken e :: rest) w = ws_handler sock (pre ++ [Closed]) w
  ∧ ws_handler sock (pre ++ Closed :: rest) w = ws_handler sock (pre ++ [Closed]) w
  ∧ (ws_handler sock (pre ++ [Closed]) w).1 = Ok tt.
Proof.
  rewrite !ws_handler_run. cbv zeta.
  destruct (send_ok sock _ _); [|done].
  rewrite !message_loop_app.
  by destruct (message_loop sock _ pre _) as [[[]|e'|] w2].
Qed.

(** X10: the handler answers every message it receives with exactly one
    [safe_send], after the one for the welcome. *)
Theorem one_send_per_message (sock : websocket) (script : list delivery) (w : world) :
  let w' := (ws_handler sock script w).2 in
  length (sends (trace w'))
    = (length (sends (trace w)) + 1 + (received (trace w') - received (trace w)))%nat.
Proof.
  intros w'. destruct (ws_handler_sends sock script w) as (new & ok & Hs & Hrec & _).
  fold w' in Hs, Hrec.
  rewrite Hs, Hrec, !length_app. simpl. lia.
Qed.

(** X11: a send that fails is the last thing the handler does on the
    socket: in the sends of a run all but the newest returned [True], and
    when the newest returned [False] the handler has returned. While the
    handler is blocked in receive every send so far has succeeded. *)
Theorem failed_send_is_last (sock : websocket) (script : list delivery) (w : world) :
  let r := (ws_handler sock script w).1 in
  let w' := (ws_handler sock script w).2 in
  ∃ new, sends (trace w') = new ++ sends (trace w)
         ∧ Forall delivered (tail new)
         ∧ (r = Pending → Forall delivered new)
         ∧ (∀ payload rest, new = (payload, false) :: rest → r = Ok tt).
Proof.
  intros r w'.
  destruct (ws_handler_sends sock script w) as (new & ok & Hs & _ & Htail & Hpend & _ & Hr).
  exists (new ++ [(welcome_msg (connection_id (now w) sock)
                     (now (added (ws_ident sock) (connection_id (now w) sock) (tick w))),
                   ok)]).
  split; [done|]. split; [done|]. split; [done|].
  intros payload rest Hnew. destruct Hr as [Hr|Hr]; [done|].
  specialize (Hpend Hr). fold r in Hr. rewrite Hnew in Hpend.
  by inversion Hpend.
Qed.

(** X12: what the handler writes to the socket is exactly the frames of
    the sends that returned [True], in the order of the sends; a send that
    returned [False] wrote nothing. *)
Theorem wire_holds_delivered_frames (sock : websocket) (script : list delivery)
    (w : world) :
  let w' := (ws_handler sock script w).2 in
  ∃ new, sends (trace w') = new ++ sends (trace w)
         ∧ wire w' = frames_of new ++ wire w.
Proof.
  intros w'.
  destruct (ws_handler_sends sock script w) as (new & ok & Hs & _ & _ & _ & Hw & _).
  eauto.
Qed.

(** X13: a handler run never touches the record of another connection:
    every id other than its own maps to what it mapped to before, whether
    the handler has returned or is blocked in receive. *)
Theorem other_records_untouched (sock : websocket) (script : list delivery)
    (w : world) (k : string) :
  k ≠ connection_id (now w) sock →
  connections (ws_handler sock script w).2 !! k = connections w !! k.
Proof.
  intros Hk. rewrite ws_handler_run. cbv zeta.
  set (cid := connection_id (now w) sock) in *.
  set (p := welcome_msg cid _). set (w1 := tick _).
  assert (H1 : connections (sent sock p w1) !! k = connections w !! k).
  { simpl. by rewrite lookup_insert_ne. }
  destruct (send_ok sock p w1).
  - destruct (message_loop sock cid script (sent sock p w1)) as [r2 w2] eqn:Hloop.
    destruct (message_loop_inv _ _ _ _ _ _ Hloop) as (_ & _ & _ & Hoth & _).
    destruct r2; cbn [snd removed connections];
      rewrite ?lookup_delete_ne by done; by rewrite Hoth.
  - cbn [snd removed connections]. by rewrite lookup_delete_ne.
Qed.

(** X14: while the handler is blocked in receive its record is in the
    registry, with the socket it was called with and the [connected_at]
    read when it registered; no message changes either of them. *)
Theorem registered_while_blocked (sock : websocket) (script : list delivery)
    (w w' : world) :
  ws_handler sock script w = (Pending, w') →
  ∃ c, connections w' !! connection_id (now w) sock = Some c
       ∧ ws c = ws_ident sock
       ∧ connected_at c = now (tick w)
       ∧ message_count c = Z.of_nat (length script).
Proof.
  rewrite ws_handler_run. cbv zeta.
  set (cid := connection_id (now w) sock).
  set (p := welcome_msg cid _). set (w1 := tick _).
  assert (Hreg : connections (sent sock p w1) !! cid
                 = Some (ConnInfo (ws_ident sock) (now (tick w)) (now (tick (tick w))) 0)).
  { simpl. by rewrite lookup_insert_eq. }
  destruct (send_ok sock p w1); [|done].
  destruct (message_loop sock cid script (sent sock p w1)) as [r2 w2] eqn:Hloop.
  destruct r2; try done. intros [= <-].
  destruct (message_loop_inv _ _ _ _ _ _ Hloop) as (_ & _ & _ & _ & _ & Hcnt).
  destruct (Hcnt _ Hreg) as (c & Hc & Hws & Hat & Hm).
  apply message_loop_pending in Hloop.
  exists c. repeat split; [done..|]. simpl in *. lia.
Qed.

(** X15: the receive loop never creates a record: when the id has no
    record (it was removed while the handler was running) the registry
    stays exactly as it is, however many messages arrive. *)
Theorem loop_never_registers (sock : websocket) (cid : string)
    (script : list delivery) (w : world) :
  connections w !! cid = None →
  connections (message_loop sock cid script w).2 = connections w.
Proof.
  intros Hc.
  destruct (message_loop sock cid script w) as [r w'] eqn:Hloop.
  destruct (message_loop_inv _ _ _ _ _ _ Hloop) as (_ & _ & _ & Hoth & Habs & _).
  apply map_eq. intros k. destruct (decide (k = cid)) as [->|Hk].
  - simpl. by rewrite Habs, Hc.
  - by apply Hoth.
Qed.
End HandlerMore.

(** * Runs of the model on the concrete runtime *)

Import Demo.

Lemma cleanup_removes_once_witness :
  let run := ws_handler good_socket [Frame "not-json"; Frame heartbeat_raw; Closed] start in
  ws_handler good_socket [Frame "not-json"; Frame heartbeat_raw; Closed] start
    = (Ok tt, run.2)
  ∧ Ok tt ≠ (Pending : outcome unit)
  ∧ Ok tt = (Ok tt : outcome unit)
  ∧ removals first_id (trace run.2) = S (removals first_id (trace start))
  ∧ connections run.2 !! first_id = None
  ∧ ∃ report w'', get_connection_info run.2 = (Ok report, w'')
                  ∧ report_connections report !! first_id = None.
Proof.
  intros run.
  assert (H1 : ws_handler good_socket [Frame "not-json"; Frame heartbeat_raw; Closed] start
               = (Ok tt, run.2)) by (vm_compute; reflexivity).
  assert (H2 : Ok tt ≠ (Pending : outcome unit)) by discriminate.
  split; [exact H1|]. split; [exact H2|].
  exact (cleanup_removes_once good_socket _ start run.2 (Ok tt) H1 H2).
Defined.

Lemma message_count_counts_received_witness :
  let run := handler_body good_socket first_id
               [Frame "not-json"; Frame heartbeat_raw; Frame "[1, 2]"] start in
  handler_body good_socket first_id
    [Frame "not-json"; Frame heartbeat_raw; Frame "[1, 2]"] start = (Pending, run.2)
  ∧ ∃ c, connections run.2 !! first_id = Some c
         ∧ message_count c
             = Z.of_nat (received (trace run.2)) - Z.of_nat (received (trace start))
         ∧ (Pending = (Pending : outcome unit) →
            message_count c
              = Z.of_nat (length [Frame "not-json"; Frame heartbeat_raw; Frame "[1, 2]"]))
         ∧ ∀ more r2 w2,
             handler_body good_socket first_id
               ([Frame "not-json"; Frame heartbeat_raw; Frame "[1, 2]"] ++ more) start
               = (r2, w2) →
             ∃ c2, connections w2 !! first_id = Some c2
                   ∧ message_count c ≤ message_count c2.
Proof.
  intros run.
  assert (H1 : handler_body good_socket first_id
                 [Frame "not-json"; Frame heartbeat_raw; Frame "[1, 2]"] start
               = (Pending, run.2)) by (vm_compute; reflexivity).
  split; [exact H1|].
  exact (message_count_counts_received good_socket first_id _ start run.2 Pending H1).
Defined.

Lemma decode_failure_keeps_connection_witness :
  json_loads "not-json"
    = inl (JSONDecodeError "Expecting value: line 1 column 1 (char 0)")
  ∧ iteration good_socket busy_id (Frame "not-json") busy
      = replied good_socket
          (invalid_json "Expecting value: line 1 column 1 (char 0)"
             (now (arrived busy_id "not-json" busy)))
          (tick (arrived busy_id "not-json" busy)).
Proof.
  assert (H1 : json_loads "not-json"
               = inl (JSONDecodeError "Expecting value: line 1 column 1 (char 0)"))
    by reflexivity.
  split; [exact H1|].
  exact (proj1 (proj2 (proj2 (proj2
    (decode_failure_keeps_connection good_socket busy_id "not-json" _
       [Frame heartbeat_raw] busy H1))))).
Defined.

Lemma ping_yields_pong_witness :
  json_loads ping_42 = inr (PDict [("type", PStr "ping"); ("timestamp", PInt 42)])
  ∧ dict_get "type" (PStr "unknown") [("type", PStr "ping"); ("timestamp", PInt 42)]
      = PStr "ping"
  ∧ connections busy !! busy_id = Some busy_record
  ∧ field "original_timestamp"
      (pong (now (arrived busy_id ping_42 busy))
            (dict_get "timestamp" PNone [("type", PStr "ping"); ("timestamp", PInt 42)])
            (float_sub (now (tick (arrived busy_id ping_42 busy)))
                       (connected_at busy_record)))
      = Some (PInt 42).
Proof.
  assert (H1 : json_loads ping_42
               = inr (PDict [("type", PStr "ping"); ("timestamp", PInt 42)]))
    by (vm_compute; reflexivity).
  assert (H2 : dict_get "type" (PStr "unknown")
                 [("type", PStr "ping"); ("timestamp", PInt 42)] = PStr "ping")
    by reflexivity.
  assert (H3 : connections busy !! busy_id = Some busy_record)
    by (vm_compute; reflexivity).
  split; [exact H1|]. split; [exact H2|]. split; [exact H3|].
  exact (proj1 (proj2 (proj2
    (ping_yields_pong good_socket busy_id ping_42 _ busy busy_record H1 H2 H3)))
    (PInt 42) eq_refl).
Defined.

Lemma test_yields_test_response_witness :
  json_loads test_abc = inr (PDict [("type", PStr "test"); ("data", PStr "abc")])
  ∧ dict_get "type" (PStr "unknown") [("type", PStr "test"); ("data", PStr "abc")]
      = PStr "test"
  ∧ ∃ reply w1,
      handler_body good_socket first_id [Frame test_abc] start =
        (if send_ok good_socket reply w1
         then message_loop good_socket first_id [] (sent good_socket reply w1)
         else (Ok tt, sent good_socket reply w1))
      ∧ field "type" reply = Some (PStr "test_response")
      ∧ field "echo_data" reply
          = Some (dict_get "data" (PStr "") [("type", PStr "test"); ("data", PStr "abc")])
      ∧ (field "connection_stats" reply ≫= field "messages_received")
          = Some (PInt 1).
Proof.
  assert (H1 : json_loads test_abc
               = inr (PDict [("type", PStr "test"); ("data", PStr "abc")]))
    by (vm_compute; reflexivity).
  assert (H2 : dict_get "type" (PStr "unknown")
                 [("type", PStr "test"); ("data", PStr "abc")] = PStr "test")
    by reflexivity.
  split; [exact H1|]. split; [exact H2|].
  apply (proj2 (test_yields_test_response good_socket first_id test_abc _ H1 H2) start []).
  vm_compute. reflexivity.
Defined.

Lemma non_object_json_gets_processing_error_witness :
  json_loads "[1, 2]" = inr (PList [PInt 1; PInt 2])
  ∧ (∀ d, PList [PInt 1; PInt 2] ≠ PDict d)
  ∧ iteration good_socket busy_id (Frame "[1, 2]") busy
      = replied good_socket (processing_error (now (arrived busy_id "[1, 2]" busy)))
                (tick (arrived busy_id "[1, 2]" busy)).
Proof.
  assert (H1 : json_loads "[1, 2]" = inr (PList [PInt 1; PInt 2])) by reflexivity.
  assert (H2 : ∀ d, PList [PInt 1; PInt 2] ≠ PDict d) by (intros d; discriminate).
  split; [exact H1|]. split; [exact H2|].
  exact (proj1 (proj2
    (non_object_json_gets_processing_error good_socket busy_id "[1, 2]" _
       [Closed] busy H1 H2))).
Defined.

Lemma unregistered_replies_witness :
  json_loads heartbeat_raw = inr (PDict [("type", PStr "heartbeat")])
  ∧ connections start !! first_id = None
  ∧ iteration good_socket first_id (Frame heartbeat_raw) start =
      replied good_socket
        (processing_error (now (tick (tick (noted (Received heartbeat_raw) start)))))
        (tick (tick (tick (noted (Received heartbeat_raw) start)))).
Proof.
  assert (H1 : json_loads heartbeat_raw = inr (PDict [("type", PStr "heartbeat")]))
    by (vm_compute; reflexivity).
  assert (H2 : connections start !! first_id = None) by reflexivity.
  split; [exact H1|]. split; [exact H2|].
  exact (proj2 (proj1
    (unregistered_replies good_socket first_id heartbeat_raw _ start H1 H2)
    (or_intror eq_refl))).
Defined.

(** C3 fails on the code: the id is registered with five messages counted,
    and [add_connection] returns normally. *)
Lemma add_connection_replaces_duplicate :
  ¬ add_rejects_duplicate 140230009999 busy_id busy.
Proof.
  intros Hclaim. destruct Hclaim as (e & He & _).
  - exists busy_record. vm_compute. reflexivity.
  - rewrite add_connection_run in He. discriminate.
Qed.

Section BinaryRun.
#[local] Existing Instance DemoBinary.lib | 0.

(** C5 fails on the code for a message whose decoding fails with an
    exception other than [JSONDecodeError]: the binary frame 0xff is
    answered with "Server processing error". *)
Lemma binary_frame_is_not_invalid_json :
  ¬ decode_failure_is_invalid_json good_socket busy_id DemoBinary.frame_ff busy.
Proof.
  intros Hclaim.
  destruct Hclaim as (payload & ok & Hs & Hf).
  { eexists. vm_compute. reflexivity. }
  vm_compute in Hs. inversion Hs; subst payload. vm_compute in Hf. discriminate.
Qed.
End BinaryRun.

(** C10 fails on the code for the type "audio_stream": with the id absent
    the reply is audio_received, not echo. *)
Lemma audio_stream_unregistered_is_not_echo :
  ¬ other_types_echo good_socket first_id audio_raw
      [("type", PStr "audio_stream")] start.
Proof.
  intros Hclaim.
  destruct Hclaim as (payload & ok & Hs & Hf);
    [vm_compute; reflexivity|reflexivity|discriminate..|].
  vm_compute in Hs. inversion Hs; subst payload. vm_compute in Hf. discriminate.
Qed.

(** C2 fails on the code: a connection is added between the two reads of
    [get_connection_info], and the report has [total_connections = 0] with
    one entry in [connections]. It is a copy of the registry neither before
    nor after the [add_connection]. *)
Lemma snapshot_torn_by_add :
  ¬ snapshot_atomic_wrt (OpAdd 140230001234 first_id) start.
Proof.
  intros Hclaim.
  destruct (read_views_run (added 140230001234 first_id start))
    as (views & w1 & Hv & [Hkeys _] & _).
  assert (Hrun : get_connection_info_during (OpAdd 140230001234 first_id) start
                 = (Ok (ConnReport 0 views), w1)).
  { unfold get_connection_info_during, run_op.
    step read_total_run. step add_connection_run. by step Hv. }
  destruct (Hclaim _ _ Hrun) as [[_ [Hbefore _]]|[Hsize _]].
  - assert (Hnone : views !! first_id = None) by by apply Hbefore.
    apply Hkeys in Hnone. simpl in Hnone.
    rewrite lookup_insert_eq in Hnone. discriminate.
  - simpl in Hsize. rewrite map_size_insert_None, map_size_empty in Hsize by done.
    discriminate.
Qed.

(** ** Runs for the further properties *)

Lemma unknown_type_is_echoed_witness :
  json_loads "{}" = inr (PDict [])
  ∧ dict_get "type" (PStr "unknown") [] = PStr "unknown"
  ∧ iteration good_socket first_id (Frame "{}") start
      = replied good_socket
          (echo (PStr "unknown") (PDict []) (now (arrived first_id "{}" start)))
          (tick (arrived first_id "{}" start)).
Proof.
  assert (H1 : json_loads "{}" = inr (PDict [])) by reflexivity.
  split; [exact H1|].
  exact (proj2 (unknown_type_is_echoed good_socket first_id "{}" [] start H1) eq_refl).
Defined.

Lemma heartbeat_is_acknowledged_witness :
  json_loads heartbeat_raw = inr (PDict [("type", PStr "heartbeat")])
  ∧ dict_get "type" (PStr "unknown") [("type", PStr "heartbeat")] = PStr "heartbeat"
  ∧ connections busy !! busy_id = Some busy_record
  ∧ iteration good_socket busy_id (Frame heartbeat_raw) busy
      = replied good_socket
          (heartbeat_ack (now (arrived busy_id heartbeat_raw busy))
             (float_sub (now (tick (arrived busy_id heartbeat_raw busy)))
                        (connected_at busy_record)))
          (tick (tick (arrived busy_id heartbeat_raw busy))).
Proof.
  assert (H1 : json_loads heartbeat_raw = inr (PDict [("type", PStr "heartbeat")]))
    by (vm_compute; reflexivity).
  assert (H2 : dict_get "type" (PStr "unknown") [("type", PStr "heartbeat")]
               = PStr "heartbeat") by reflexivity.
  assert (H3 : connections busy !! busy_id = Some busy_record)
    by (vm_compute; reflexivity).
  split; [exact H1|]. split; [exact H2|]. split; [exact H3|].
  exact (proj1 (heartbeat_is_acknowledged good_socket busy_id heartbeat_raw _
                  busy busy_record H1 H2 H3)).
Defined.

Lemma welcome_failure_closes_witness :
  send_ok (socket_failing_at 0)
    (welcome_msg first_id (now (added (ws_ident (socket_failing_at 0)) first_id
                                  (tick start))))
    (tick (added (ws_ident (socket_failing_at 0)) first_id (tick start))) = false
  ∧ ∃ w', ws_handler (socket_failing_at 0) [Frame heartbeat_raw; Closed] start
            = (Ok tt, w')
          ∧ received (trace w') = received (trace start)
          ∧ sends (trace w')
              = (welcome_msg first_id
                   (now (added (ws_ident (socket_failing_at 0)) first_id (tick start))),
                 false) :: sends (trace start)
          ∧ wire w' = wire start
          ∧ connections w' = delete first_id (connections start).
Proof.
  assert (H1 : send_ok (socket_failing_at 0)
                 (welcome_msg first_id
                    (now (added (ws_ident (socket_failing_at 0)) first_id (tick start))))
                 (tick (added (ws_ident (socket_failing_at 0)) first_id (tick start)))
               = false) by (vm_compute; reflexivity).
  split; [exact H1|].
  exact (welcome_failure_closes (socket_failing_at 0) [Frame heartbeat_raw; Closed]
           start H1).
Defined.

Lemma handler_ignores_after_end_witness :
  let w' := (ws_handler good_socket [Frame "not-json"; Closed] start).2 in
  ws_handler good_socket [Frame "not-json"; Closed] start = (Ok tt, w')
  ∧ ws_handler good_socket ([Frame "not-json"; Closed] ++ [Frame heartbeat_raw]) start
      = (Ok tt, w').
Proof.
  intros w'.
  assert (H1 : ws_handler good_socket [Frame "not-json"; Closed] start = (Ok tt, w'))
    by (vm_compute; reflexivity).
  split; [exact H1|].
  exact (handler_ignores_after_end good_socket _ [Frame heartbeat_raw] start w' H1).
Defined.

Lemma other_records_untouched_witness :
  busy_id ≠ connection_id (now busy) good_socket
  ∧ connections (ws_handler good_socket [Frame heartbeat_raw; Closed] busy).2 !! busy_id
      = connections busy !! busy_id.
Proof.
  assert (H1 : busy_id ≠ connection_id (now busy) good_socket)
    by (vm_compute; discriminate).
  split; [exact H1|].
  exact (other_records_untouched good_socket [Frame heartbeat_raw; Closed] busy
           busy_id H1).
Defined.

Lemma registered_while_blocked_witness :
  let w' := (ws_handler good_socket [Frame "not-json"; Frame heartbeat_raw] start).2 in
  ws_handler good_socket [Frame "not-json"; Frame heartbeat_raw] start = (Pending, w')
  ∧ ∃ c, connections w' !! connection_id (now start) good_socket = Some c
         ∧ ws c = ws_ident good_socket
         ∧ connected_at c = now (tick start)
         ∧ message_count c = Z.of_nat (length [Frame "not-json"; Frame heartbeat_raw]).
Proof.
  intros w'.
  assert (H1 : ws_handler good_socket [Frame "not-json"; Frame heartbeat_raw] start
               = (Pending, w')) by (vm_compute; reflexivity).
  split; [exact H1|].
  exact (registered_while_blocked good_socket _ start w' H1).
Defined.

Lemma loop_never_registers_witness :
  connections busy !! first_id = None
  ∧ connections (message_loop good_socket first_id
                   [Frame heartbeat_raw; Frame "not-json"] busy).2
      = connections busy.
Proof.
  assert (H1 : connections busy !! first_id = None) by (vm_compute; reflexivity).
  split; [exact H1|].
  exact (loop_never_registers good_socket first_id _ busy H1).
Defined.

Section AudioRun.
#[local] Existing Instance DemoAudio.lib | 0.

Lemma audio_stream_reports_size_witness :
  json_loads DemoAudio.audio_xxxxx
    = inr (PDict [("type", PStr "audio_stream"); ("data", PStr "xxxxx")])
  ∧ dict_get "type" (PStr "unknown")
      [("type", PStr "audio_stream"); ("data", PStr "xxxxx")] = PStr "audio_stream"
  ∧ iteration good_socket first_id (Frame DemoAudio.audio_xxxxx) start
      = replied good_socket
          (audio_received 5 (now (arrived first_id DemoAudio.audio_xxxxx start)))
          (tick (arrived first_id DemoAudio.audio_xxxxx start)).
Proof.
  assert (H1 : json_loads DemoAudio.audio_xxxxx
               = inr (PDict [("type", PStr "audio_stream"); ("data", PStr "xxxxx")]))
    by (vm_compute; reflexivity).
  assert (H2 : dict_get "type" (PStr "unknown")
                 [("type", PStr "audio_stream"); ("data", PStr "xxxxx")]
               = PStr "audio_stream") by reflexivity.
  split; [exact H1|]. split; [exact H2|].
  exact (proj1 (audio_stream_reports_size good_socket first_id
                  DemoAudio.audio_xxxxx _ start H1 H2) "xxxxx" eq_refl).
Defined.
End AudioRun.
